(** * Halloween app: the admin server and the admin client

    A shallow embedding of [server.js] (both copies in the repository: the
    one without sessions and the one with session, helmet and rate-limit
    middleware) and of the address editor of the admin page, followed by the
    properties of the address-management workflow.

    Conventions of the embedding

    - A JavaScript value is a [value]; numbers are IEEE binary64, as in
      JavaScript, so [0], [-0] and [NaN] are falsy numbers.
    - [req.body] is the value the body parsers produced.
    - A handler is a function from the request, the session attached to it
      and the [World] (the in-memory [db.data], the file [db.json] and the
      rate limiter's counter) to an [Outcome]: the reply, the session and
      world afterwards, and the externally visible events of the call in
      order (geocoder requests, delays, file writes, bcrypt calls).
    - A handler whose promise rejects has the reply [Thrown]; neither copy
      of the server installs an error handler.
    - [db.write()] is taken to succeed.  The world keeps the document that
      was handed to the last write; [db.json] holds its JSON text, and
      [onDisk] is what a reader of the file gets back.
    - The geocoding service and bcrypt are collaborators: the first is an
      arbitrary function from the call number and the query to a reply, the
      second a type class with the contract of a password hash.
    - A string is a sequence of code units below 256. *)

From Stdlib Require Import List String Ascii Bool Arith Lia.
From Stdlib Require Import Floats.PrimFloat.
Import ListNotations.
Local Open Scope string_scope.
Local Open Scope bool_scope.
Local Open Scope list_scope.

(** ** JavaScript values *)

Module JS.

#[local] Unset Elimination Schemes.

Inductive value : Type :=
| VUndefined
| VNull
| VBool (b : bool)
| VNum (x : float)
| VStr (s : string)
| VArr (items : list value)
| VObj (fields : list (string * value)).

#[local] Set Elimination Schemes.

Definition obj : Type := list (string * value).

(** ToBoolean. *)
Definition truthy (v : value) : bool :=
  match v with
  | VUndefined | VNull => false
  | VBool b => b
  | VNum x => negb (PrimFloat.is_zero x || PrimFloat.is_nan x)
  | VStr s => negb (String.eqb s EmptyString)
  | VArr _ | VObj _ => true
  end.

(** [o[k]] on the own properties of a plain object. *)
Fixpoint lookup (k : string) (o : obj) : value :=
  match o with
  | [] => VUndefined
  | (k', v) :: o' => if String.eqb k k' then v else lookup k o'
  end.

Fixpoint hasOwn (k : string) (o : obj) : bool :=
  match o with
  | [] => false
  | (k', _) :: o' => String.eqb k k' || hasOwn k o'
  end.

(** [o[k] = v]: an existing property keeps its place, a new one is added
    last. *)
Fixpoint assign (k : string) (v : value) (o : obj) : obj :=
  match o with
  | [] => [(k, v)]
  | (k', v') :: o' =>
      if String.eqb k k' then (k, v) :: o' else (k', v') :: assign k v o'
  end.

(** [delete o[k]]. *)
Fixpoint remove (k : string) (o : obj) : obj :=
  match o with
  | [] => []
  | (k', v') :: o' =>
      if String.eqb k k' then remove k o' else (k', v') :: remove k o'
  end.

(** [v.k] for a property name other than [length]: a TypeError ([None])
    on [undefined] and [null], the own property of an object, and
    [undefined] on booleans, numbers, strings and arrays. *)
Definition prop (v : value) (k : string) : option value :=
  match v with
  | VUndefined | VNull => None
  | VObj o => Some (lookup k o)
  | _ => Some VUndefined
  end.

(** [v.k = x] where [v] is not [undefined] or [null]: only an object
    changes. *)
Definition setProp (v : value) (k : string) (x : value) : value :=
  match v with
  | VObj o => VObj (assign k x o)
  | _ => v
  end.

(** [delete v.k]. *)
Definition deleteProp (v : value) (k : string) : value :=
  match v with
  | VObj o => VObj (remove k o)
  | _ => v
  end.

Definition hasProp (v : value) (k : string) : bool :=
  match v with
  | VObj o => hasOwn k o
  | _ => false
  end.

Definition isArray (v : value) : bool :=
  match v with VArr _ => true | _ => false end.

Definition isNullish (v : value) : bool :=
  match v with VUndefined | VNull => true | _ => false end.

(** [s === v] for a string [s]. *)
Definition strictEqStr (s : string) (v : value) : bool :=
  match v with VStr t => String.eqb s t | _ => false end.

(** Whether ToString of the value returns, as a template literal and
    [encodeURIComponent] need it.  A value read from JSON holds no function:
    an object with an own property [toString] has nothing to call, and
    [Object.prototype.valueOf] gives back the object, so the conversion
    raises a TypeError; without that property the object becomes
    [[object Object]].  An array joins the strings of its elements. *)
Fixpoint stringifies (v : value) : bool :=
  match v with
  | VArr items => forallb stringifies items
  | VObj fields => negb (hasOwn "toString" fields)
  | _ => true
  end.

End JS.
Export JS.

(** ** The stored document and the world of the server *)

(** [db.data]: [{ addresses: [], rules: "", adminPassword: ... }]. *)
Record Doc : Type := mkDoc {
  addresses : list value;
  rules : string;
  adminPassword : string
}.

(** [data] is [db.data]; [file] is the document that the last
    [db.write()] was given, which [db.json] holds as JSON text; [hits] is
    the number of requests the rate limiter has counted for this client in
    the current window. *)
Record World : Type := mkWorld {
  data : Doc;
  file : Doc;
  hits : nat
}.

(** [req.session]: [user] is the flag the sign-in sets. *)
Record Session : Type := mkSession { user : bool }.

Inductive Event : Type :=
| Fetch (q : value)          (* a request to the geocoding service for [q] *)
| Delay (ms : nat)           (* [await delay(ms)] *)
| ConsoleError               (* the [catch] branch of the geocoding step *)
| Write (d : Doc)            (* [await db.write()] with [db.data = d] *)
| Compare (data : value) (hash : string)   (* [bcrypt.compare] *)
| Hash (data : value).                     (* [bcrypt.hash] *)

Inductive Body : Type :=
| JsonMsg (success : bool) (message : string)
| JsonVal (v : value)
| JsonRules (r : string)
| Html (s : string)
| Text (s : string)
| Redirect (location : string)
| SendFile (p : string).

Record Response : Type := mkResponse { status : nat; payload : Body }.

Inductive Reply : Type :=
| Sent (r : Response)
| Thrown.

Record Outcome : Type := mkOutcome {
  reply : Reply;
  session : Session;
  world : World;
  events : list Event
}.

(** ** Collaborators *)

(** What one geocoding request comes to.  [GeoFails]: the [try] block
    raised and the [catch] branch ran ([fetch] rejected, the body was not
    JSON, or the first match was [null]).  [GeoMatches ms]: [geoData] held
    the matches [ms], each with the numbers [parseFloat] reads from its
    [lat] and [lon] (NaN where there is none); no match when [geoData] is
    falsy or empty. *)
Inductive GeoReply : Type :=
| GeoFails
| GeoMatches (ms : list (float * float)).

(** The service: the reply to the [n]-th request of a batch for a query. *)
Definition Geocoder : Type := nat -> value -> GeoReply.

(** The libraries the handlers call and the repository does not hold.

    [bcrypt.hash(data, 10)] with the salt it draws and
    [bcrypt.compare(data, hash)]; [None] is a rejected promise.  The
    contract covers string data: both calls resolve and a password verifies
    against a hash exactly when it is the password that was hashed.  On
    data that is not a string the library rejects; [rejectsNonStrings]
    below says so, for the property that depends on it.

    [toNumber] is the ToNumber coercion of the language on strings and
    arrays (the numeric-literal grammar), which the embedding leaves
    open. *)
Class Runtime : Type := {
  bcrypt_hash : value -> nat -> option string;
  bcrypt_compare : value -> string -> option bool;
  toNumber : value -> float;
  hash_resolves : forall p salt, bcrypt_hash (VStr p) salt <> None;
  compare_resolves : forall p h, bcrypt_compare (VStr p) h <> None;
  compare_hash : forall p q salt h,
      bcrypt_hash (VStr q) salt = Some h ->
      bcrypt_compare (VStr p) h = Some (String.eqb p q)
}.

(** ** The server *)

Module Server.

(** The two copies of [server.js]. *)
Inductive Variant : Type :=
| Plain      (* server.js: no session, no rate limit *)
| Secured.   (* the copy with session, helmet and rate-limit middleware *)

Definition json (code : nat) (success : bool) (message : string) : Reply :=
  Sent (mkResponse code (JsonMsg success message)).

Definition setAddresses (d : Doc) (l : list value) : Doc :=
  mkDoc l (rules d) (adminPassword d).

Definition setRules (d : Doc) (r : string) : Doc :=
  mkDoc (addresses d) r (adminPassword d).

Definition setAdminPassword (d : Doc) (h : string) : Doc :=
  mkDoc (addresses d) (rules d) h.

(** [db.data = d; await db.write()]: [d] is in memory and is the document
    handed to the write. *)
Definition written (w : World) (d : Doc) : World :=
  mkWorld d d (hits w).

(** *** GET /api/addresses and GET /api/rules *)

Definition getAddresses (sess : Session) (w : World) : Outcome :=
  mkOutcome (Sent (mkResponse 200 (JsonVal (VArr (addresses (data w))))))
            sess w [].

Definition getRules (sess : Session) (w : World) : Outcome :=
  mkOutcome (Sent (mkResponse 200 (JsonRules (rules (data w))))) sess w [].

(** *** POST /api/rules *)

Definition rulesError (v : Variant) : string :=
  match v with
  | Plain => "Invalid data format. Expected a string for rules."
  | Secured => "Invalid data format."
  end.

Definition postRules (v : Variant) (body : value)
           (sess : Session) (w : World) : Outcome :=
  match prop body "rules" with
  | None => mkOutcome Thrown sess w []
  | Some (VStr r) =>
      let d := setRules (data w) r in
      mkOutcome (json 200 true "Rules updated successfully.")
                sess (written w d) [Write d]
  | Some _ => mkOutcome (json 400 false (rulesError v)) sess w []
  end.

(** *** POST /api/addresses *)

(** [address.text && (!address.lat || !address.lon)]; [None] when reading
    [address.text] is a TypeError. *)
Definition needsGeocode (address : value) : option bool :=
  match prop address "text", prop address "lat", prop address "lon" with
  | Some text, Some lat, Some lon =>
      Some (truthy text && (negb (truthy lat) || negb (truthy lon)))
  | _, _, _ => None
  end.

(** Whether the loop sends a request for the address: the test selects it
    and [encodeURIComponent(address.text)] returns. *)
Definition sendsRequest (address : value) : bool :=
  match needsGeocode address, prop address "text" with
  | Some true, Some text => stringifies text
  | _, _ => false
  end.

(** The body of the [for] loop for one address, the [n]-th request to the
    service being the next one: the address afterwards and the events.
    When [encodeURIComponent(address.text)] raises, inside the [try] and
    before [fetch] is called, the [catch] branch runs and no request is
    sent. *)
Definition geocodeOne (geo : Geocoder) (n : nat) (address : value)
  : option (value * list Event) :=
  match needsGeocode address, prop address "text" with
  | Some true, Some text =>
      if stringifies text then
        match geo n text with
        | GeoFails => Some (address, [Fetch text; ConsoleError])
        | GeoMatches [] => Some (address, [Fetch text; Delay 1000])
        | GeoMatches ((la, lo) :: _) =>
            Some (setProp (setProp address "lat" (VNum la)) "lon" (VNum lo),
                  [Fetch text; Delay 1000])
        end
      else Some (address, [ConsoleError])
  | Some false, _ => Some (address, [])
  | _, _ => None
  end.

(** The number of requests one turn of the loop sends. *)
Definition requests (address : value) : nat :=
  if sendsRequest address then 1 else 0.

(** The [for] loop: the list afterwards ([None] when an element raised)
    and the events up to there. *)
Fixpoint geocodeAll (geo : Geocoder) (n : nat) (l : list value)
  : option (list value) * list Event :=
  match l with
  | [] => (Some [], [])
  | address :: rest =>
      match geocodeOne geo n address with
      | None => (None, [])
      | Some (address', evs) =>
          let r := geocodeAll geo (n + requests address) rest in
          (option_map (cons address') (fst r), evs ++ snd r)
      end
  end.

Definition addressesError (v : Variant) : string :=
  match v with
  | Plain => "Invalid data format. Expected an array of addresses."
  | Secured => "Invalid data format."
  end.

Definition postAddresses (v : Variant) (geo : Geocoder) (body : value)
           (sess : Session) (w : World) : Outcome :=
  match prop body "addresses" with
  | None => mkOutcome Thrown sess w []
  | Some (VArr l) =>
      match geocodeAll geo 0 l with
      | (None, evs) => mkOutcome Thrown sess w evs
      | (Some l', evs) =>
          let d := setAddresses (data w) l' in
          mkOutcome (json 200 true "Addresses updated successfully.")
                    sess (written w d) (evs ++ [Write d])
      end
  | Some _ => mkOutcome (json 400 false (addressesError v)) sess w []
  end.

(** *** POST /signin *)

(** [process.env.ADMIN_USERNAME === username]; the variable may be
    unset. *)
Definition usernameCorrect (adminUsername : option string)
           (username : value) : bool :=
  match adminUsername with
  | Some a => strictEqStr a username
  | None => match username with VUndefined => true | _ => false end
  end.

Definition quote : string := String (ascii_of_nat 34) EmptyString.

Definition authFailed : Reply :=
  Sent (mkResponse 401
          (Html ("Authentication Failed. <a href=" ++ quote ++ "/signin.html"
                 ++ quote ++ ">Try again</a>")%string)).

Definition postSignin `{Runtime} (v : Variant) (adminUsername : option string)
           (body : value) (sess : Session) (w : World) : Outcome :=
  match prop body "username", prop body "password" with
  | Some username, Some password =>
      if usernameCorrect adminUsername username then
        let h := adminPassword (data w) in
        match bcrypt_compare password h with
        | None => mkOutcome Thrown sess w [Compare password h]
        | Some true =>
            mkOutcome (Sent (mkResponse 302 (Redirect "/admin.html")))
                      (match v with Secured => mkSession true | Plain => sess end)
                      w [Compare password h]
        | Some false => mkOutcome authFailed sess w [Compare password h]
        end
      else mkOutcome authFailed sess w []
  | _, _ => mkOutcome Thrown sess w []
  end.

(** *** POST /api/signout (the secured copy only) *)

Definition postSignout (sess : Session) (w : World) : Outcome :=
  mkOutcome (json 200 true "Signed out successfully.") (mkSession false) w [].

(** *** POST /api/change-password *)

(** [x < 8] for the value [x] of a [length] property that is not read
    from a string or an array: [undefined] and an object become NaN,
    [null] and a boolean 0 or 1. *)
Definition below8 `{Runtime} (x : value) : bool :=
  match x with
  | VNum n => PrimFloat.ltb n 8%float
  | VNull | VBool _ => true
  | VUndefined | VObj _ => false
  | VStr _ | VArr _ => PrimFloat.ltb (toNumber x) 8%float
  end.

(** [newPassword.length < 8] for a truthy [newPassword]. *)
Definition shorterThan8 `{Runtime} (newPassword : value) : bool :=
  match newPassword with
  | VStr s => Nat.ltb (String.length s) 8
  | VArr l => Nat.ltb (List.length l) 8
  | VObj o => below8 (lookup "length" o)
  | _ => false
  end.

Definition postChangePassword `{Runtime} (salt : nat) (body : value)
           (sess : Session) (w : World) : Outcome :=
  match prop body "currentPassword", prop body "newPassword" with
  | Some currentPassword, Some newPassword =>
      if negb (truthy currentPassword) || negb (truthy newPassword) then
        mkOutcome (json 400 false "Current and new passwords are required.")
                  sess w []
      else if shorterThan8 newPassword then
        mkOutcome
          (json 400 false "New password must be at least 8 characters long.")
          sess w []
      else
        let h := adminPassword (data w) in
        match bcrypt_compare currentPassword h with
        | None => mkOutcome Thrown sess w [Compare currentPassword h]
        | Some false =>
            mkOutcome (json 401 false "Incorrect current password.")
                      sess w [Compare currentPassword h]
        | Some true =>
            match bcrypt_hash newPassword salt with
            | None =>
                mkOutcome Thrown sess w
                          [Compare currentPassword h; Hash newPassword]
            | Some hashedNewPassword =>
                let d := setAdminPassword (data w) hashedNewPassword in
                mkOutcome (json 200 true "Password updated successfully.")
                          sess (written w d)
                          [Compare currentPassword h; Hash newPassword; Write d]
            end
        end
  | _, _ => mkOutcome Thrown sess w []
  end.

End Server.
Export Server.

(** ** Routing *)

Module Routes.

(** The methods the routes are registered for.  (HEAD, which Express
    serves from the GET routes, and the other methods are left out.) *)
Inductive Method : Type := GET | POST.

Record Request : Type := mkRequest {
  method : Method;
  path : string;
  body : value
}.

(** [process.env.ADMIN_USERNAME] and the files under [public/], by the
    request path that names them. *)
Record Config : Type := mkConfig {
  ADMIN_USERNAME : option string;
  publicFiles : string -> bool
}.

Definition Handler : Type := Session -> World -> Outcome.

Definition sameMethod (a b : Method) : bool :=
  match a, b with
  | GET, GET | POST, POST => true
  | _, _ => false
  end.

(** The letters A-Z in lower case, as the [i] flag of a regular expression
    folds them. *)
Definition foldChar (c : ascii) : ascii :=
  let n := nat_of_ascii c in
  if Nat.leb 65 n && Nat.leb n 90 then ascii_of_nat (n + 32) else c.

Fixpoint foldCase (s : string) : string :=
  match s with
  | EmptyString => EmptyString
  | String c s' => String (foldChar c) (foldCase s')
  end.

(** How Express matches [req.path] against the path [p] of [app.get] and
    [app.post] with its default settings (no case sensitive routing, no
    strict routing): without regard to the case of letters, and with one
    slash allowed at the end. *)
Definition matchesPath (p requested : string) : bool :=
  String.eqb (foldCase requested) (foldCase p)
  || String.eqb (foldCase requested) (foldCase p ++ "/")%string.

Definition route (m : Method) (p : string) (req : Request) : bool :=
  sameMethod m (method req) && matchesPath p (path req).

Definition respond (r : Response) : Handler :=
  fun sess w => mkOutcome (Sent r) sess w [].

(** [express.static(path.join(__dirname, 'public'))]: a GET for a file
    that exists under [public/] is answered with the file, anything else
    is passed on to the next middleware.  (HEAD requests and the index
    file of a directory are left out.) *)
Definition serveStatic (cfg : Config) (req : Request) : option Response :=
  match method req with
  | GET =>
      if publicFiles cfg (path req)
      then Some (mkResponse 200 (SendFile ("public" ++ path req)%string))
      else None
  | POST => None
  end.

(** The end of the stack. *)
Definition notFound : Handler :=
  respond (mkResponse 404 (Text "Not Found")).

(** [isAuthenticated]; [req.path.startsWith('/api/')] reads the path as
    it was requested. *)
Definition isAuthenticated (req : Request) (next : Handler) : Handler :=
  fun sess w =>
    if user sess then next sess w
    else if String.prefix "/api/" (path req) then
      mkOutcome (json 401 false "Unauthorized. Please sign in.") sess w []
    else respond (mkResponse 302 (Redirect "/signin.html")) sess w.

(** [authLimiter]: [max: 10] requests in a window, which the counter
    [hits] follows. *)
Definition authLimiter (next : Handler) : Handler :=
  fun sess w =>
    let w' := mkWorld (data w) (file w) (S (hits w)) in
    if Nat.ltb (hits w) 10 then next sess w'
    else respond
           (mkResponse 429
              (Text "Too many login or password change attempts from this IP, please try again after 15 minutes"))
           sess w'.

(** [res.sendFile(path.join(__dirname, 'public', 'admin.html'))]. *)
Definition adminPage (cfg : Config) : Handler :=
  if publicFiles cfg "/admin.html"
  then respond (mkResponse 200 (SendFile "public/admin.html"))
  else notFound.

(** The copy with the security middleware, in the order of its
    [app.use], [app.get] and [app.post] calls: the static files come
    first, helmet, the body parsers and the session middleware pass the
    request on, then the routes. *)
Definition securedApp `{Runtime} (cfg : Config) (geo : Geocoder) (salt : nat)
           (req : Request) : Handler :=
  match serveStatic cfg req with
  | Some r => respond r
  | None =>
      if route GET "/api/addresses" req then getAddresses
      else if route GET "/api/rules" req then getRules
      else if route POST "/api/rules" req then
        isAuthenticated req (postRules Secured (body req))
      else if route POST "/api/addresses" req then
        isAuthenticated req (postAddresses Secured geo (body req))
      else if route GET "/admin.html" req then
        isAuthenticated req (adminPage cfg)
      else if route POST "/signin" req then
        authLimiter (postSignin Secured (ADMIN_USERNAME cfg) (body req))
      else if route POST "/api/signout" req then postSignout
      else if route POST "/api/change-password" req then
        isAuthenticated req (authLimiter (postChangePassword salt (body req)))
      else notFound
  end.

(** [server.js]: the body parsers, the API routes, the static files, then
    the sign-in and password routes.  No route has a middleware of its
    own. *)
Definition plainApp `{Runtime} (cfg : Config) (geo : Geocoder) (salt : nat)
           (req : Request) : Handler :=
  if route GET "/api/addresses" req then getAddresses
  else if route GET "/api/rules" req then getRules
  else if route POST "/api/rules" req then postRules Plain (body req)
  else if route POST "/api/addresses" req then
    postAddresses Plain geo (body req)
  else
    match serveStatic cfg req with
    | Some r => respond r
    | None =>
        if route POST "/signin" req then
          postSignin Plain (ADMIN_USERNAME cfg) (body req)
        else if route POST "/api/change-password" req then
          postChangePassword salt (body req)
        else notFound
    end.

End Routes.
Export Routes.

(** ** The admin client (the address editor of the admin page) *)

Module Admin.

(** *** String operations *)

(** White space of [String.prototype.trim] among the code units below
    256: tab, line feed, vertical tab, form feed, carriage return, space
    and no-break space. *)
Definition isSpace (c : ascii) : bool :=
  let n := nat_of_ascii c in
  (Nat.leb 9 n && Nat.leb n 13) || Nat.eqb n 32 || Nat.eqb n 160.

(** [toLowerCase] on one code unit below 256: A-Z, and the capital
    letters of Latin-1 (192-222 but the multiplication sign 215). *)
Definition lowerChar (c : ascii) : ascii :=
  let n := nat_of_ascii c in
  if (Nat.leb 65 n && Nat.leb n 90)
     || (Nat.leb 192 n && Nat.leb n 222 && negb (Nat.eqb n 215))
  then ascii_of_nat (n + 32)
  else c.

Fixpoint toLowerCase (s : string) : string :=
  match s with
  | EmptyString => EmptyString
  | String c s' => String (lowerChar c) (toLowerCase s')
  end.

Fixpoint trimStart (s : string) : string :=
  match s with
  | EmptyString => EmptyString
  | String c s' => if isSpace c then trimStart s' else s
  end.

Fixpoint trimEnd (s : string) : string :=
  match s with
  | EmptyString => EmptyString
  | String c s' =>
      match trimEnd s' with
      | EmptyString => if isSpace c then EmptyString else String c EmptyString
      | t => String c t
      end
  end.

Definition trim (s : string) : string := trimEnd (trimStart s).

Definition endsWith (s suffix : string) : bool :=
  let n := String.length s in
  let m := String.length suffix in
  Nat.leb m n && String.eqb (String.substring (n - m) m s) suffix.

Definition isEmpty (s : string) : bool :=
  match s with EmptyString => true | _ => false end.

(** [s || undefined]. *)
Definition orUndefined (s : string) : value :=
  if isEmpty s then VUndefined else VStr s.

(** *** Edit *)

(** [locationSuffix] of [handleEdit]; it starts with a space. *)
Definition locationSuffix : string := " ardlethan nsw 2665".

(** The [while] loop of [handleEdit]; [streetPart] and [fullAddress] hold
    the same string whenever the condition is tested.  [None] when the
    fuel runs out. *)
Fixpoint stripLoop (fuel : nat) (streetPart : string) : option string :=
  if endsWith (toLowerCase streetPart) locationSuffix then
    match fuel with
    | O => None
    | S fuel' =>
        stripLoop fuel'
          (trim (String.substring 0
                   (String.length streetPart - String.length locationSuffix)
                   streetPart))
    end
  else Some streetPart.

(** [handleEdit(index)] up to [input.value = streetPart]: the text the
    edit box shows.  [None] is a TypeError: no entry at [index], or a
    [text] that is not a string. *)
Definition handleEdit (index : nat) (currentAddresses : list value)
  : option string :=
  match nth_error currentAddresses index with
  | Some entry =>
      match prop entry "text" with
      | Some (VStr fullAddress) =>
          stripLoop (String.length fullAddress) fullAddress
      | _ => None
      end
  | None => None
  end.

Fixpoint setNth {A : Type} (i : nat) (x : A) (l : list A) : list A :=
  match l, i with
  | [], _ => []
  | _ :: l', O => x :: l'
  | y :: l', S i' => y :: setNth i' x l'
  end.

(** The entry after [saveButton.onclick], given what the two inputs
    hold. *)
Definition editedEntry (entry oldAddressText : value)
           (inputValue instructionsValue : string) : value :=
  let newStreetPart := trim inputValue in
  let newInstructions := trim instructionsValue in
  let newAddressText := (newStreetPart ++ " " ++ locationSuffix)%string in
  let cleared :=
    if negb (strictEqStr newAddressText oldAddressText)
    then deleteProp (deleteProp entry "lat") "lon"
    else entry in
  setProp (setProp cleared "text" (VStr newAddressText))
          "instructions" (orUndefined newInstructions).

(** [saveButton.onclick] of the entry at [index]: [currentAddresses]
    as [saveAddresses] then sends it. *)
Definition saveEdit (index : nat) (inputValue instructionsValue : string)
           (currentAddresses : list value) : option (list value) :=
  match nth_error currentAddresses index with
  | Some entry =>
      match prop entry "text" with
      | Some oldAddressText =>
          Some (setNth index
                  (editedEntry entry oldAddressText inputValue
                               instructionsValue)
                  currentAddresses)
      | None => None
      end
  | None => None
  end.

(** *** Add *)

(** [locationSuffix] of the add form; it has no leading space. *)
Definition addSuffix : string := "ardlethan nsw 2665".

(** The submit handler of [add-address-form]. *)
Definition addAddress (newAddress newInstructions : string)
           (currentAddresses : list value) : list value :=
  let streetAddress := trim newAddress in
  if isEmpty streetAddress then currentAddresses
  else
    let fullAddress := (streetAddress ++ " " ++ addSuffix)%string in
    currentAddresses ++
      [VObj [("text", VStr fullAddress);
             ("instructions", orUndefined (trim newInstructions))]].

(** *** Set Location and Delete *)

(** [save-location-btn]: the marker's position goes to the entry. *)
Definition saveLocation (editingIndex : nat) (lat lng : float)
           (currentAddresses : list value) : option (list value) :=
  match nth_error currentAddresses editingIndex with
  | Some entry =>
      if isNullish entry then None
      else Some (setNth editingIndex
                   (setProp (setProp entry "lat" (VNum lat)) "lon" (VNum lng))
                   currentAddresses)
  | None => None
  end.

(** [currentAddresses.splice(index, 1)]. *)
Fixpoint splice1 {A : Type} (index : nat) (l : list A) : list A :=
  match l, index with
  | [], _ => []
  | _ :: l', O => l'
  | y :: l', S i => y :: splice1 i l'
  end.

(** [handleDelete(index)], [confirmed] being the answer to [confirm].  The
    question is built first, from [currentAddresses[index].text]: [None] is
    the TypeError of reading [text] where there is no entry or the entry is
    [null], or of a text that has no string; then nothing is asked and
    nothing removed. *)
Definition handleDelete (index : nat) (confirmed : bool)
           (currentAddresses : list value) : option (list value) :=
  match nth_error currentAddresses index with
  | Some entry =>
      match prop entry "text" with
      | Some text =>
          if stringifies text then
            Some (if confirmed then splice1 index currentAddresses
                  else currentAddresses)
          else None
      | None => None
      end
  | None => None
  end.

(** *** Saving *)

(** What [JSON.stringify] followed by the server's [JSON.parse] makes of
    a value: a property that is [undefined] is left out, [undefined] in
    an array and a number that is not finite become [null], and [-0]
    becomes [0]. *)
Fixpoint wire (v : value) : value :=
  match v with
  | VUndefined => VNull
  | VNum x =>
      if PrimFloat.is_nan x || PrimFloat.is_infinity x then VNull
      else if PrimFloat.is_zero x then VNum 0%float
      else VNum x
  | VArr items => VArr (map wire items)
  | VObj fields =>
      VObj ((fix props (o : list (string * value)) : list (string * value) :=
               match o with
               | [] => []
               | (_, VUndefined) :: o' => props o'
               | (k, x) :: o' => (k, wire x) :: props o'
               end) fields)
  | _ => v
  end.

(** The body of the POST of [saveAddresses]. *)
Definition saveAddresses (currentAddresses : list value) : value :=
  wire (VObj [("addresses", VArr currentAddresses)]).

End Admin.

(** ** The vocabulary of the properties *)

(** The values of [body.k] and [address.k] where that is not a TypeError. *)
Definition field (v : value) (k : string) : value :=
  match prop v k with
  | Some x => x
  | None => VUndefined
  end.

(** The test of the geocoding loop, as a boolean. *)
Definition needs (address : value) : bool :=
  match needsGeocode address with
  | Some true => true
  | _ => false
  end.

(** The queries sent to the geocoding service, in order. *)
Definition queries (evs : list Event) : list value :=
  flat_map (fun e => match e with Fetch q => [q] | _ => [] end) evs.

Definition isWrite (e : Event) : bool :=
  match e with Write _ => true | _ => false end.


(** Every request to the service but the first comes after a delay of at
    least [ms] since the request before it; [waited] says whether such a
    delay has passed since the last request. *)
Fixpoint spacedFrom (ms : nat) (waited : bool) (evs : list Event) : bool :=
  match evs with
  | [] => true
  | Fetch _ :: evs' => waited && spacedFrom ms false evs'
  | Delay d :: evs' => spacedFrom ms (waited || Nat.leb ms d) evs'
  | _ :: evs' => spacedFrom ms waited evs'
  end.

Definition spaced (ms : nat) (evs : list Event) : bool :=
  spacedFrom ms true evs.

(** Every request to the service is followed at once by a delay of at least
    [ms]: nothing, no other request and no write, comes between the
    two. *)
Fixpoint delayedAfterEach (ms : nat) (evs : list Event) : bool :=
  match evs with
  | [] => true
  | Fetch _ :: evs' =>
      match evs' with
      | Delay d :: _ => Nat.leb ms d
      | _ => false
      end && delayedAfterEach ms evs'
  | _ :: evs' => delayedAfterEach ms evs'
  end.

(** A number that is not NaN and not infinite: the numbers JSON text can
    hold. *)
Definition isFinite (x : float) : bool :=
  negb (PrimFloat.is_nan x || PrimFloat.is_infinity x).

(** The address has the coordinate [k]: [address.k] is a finite number.
    Anything else is no coordinate: a property that is missing or [null],
    a string, and NaN, which [db.json] holds as [null]. *)
Definition hasCoordinate (address : value) (k : string) : bool :=
  match field address k with
  | VNum x => isFinite x
  | _ => false
  end.

(** An address has [lat] exactly when it has [lon]. *)
Definition coordinatesPaired (address : value) : Prop :=
  hasCoordinate address "lat" = hasCoordinate address "lon".

(** An object of the language has each of its keys once. *)
Definition uniqueKeys (a : value) : Prop :=
  match a with
  | VObj o => NoDup (map fst o)
  | _ => True
  end.

(** The contract of the Geocoding Client: a match carries a decimal
    latitude and a decimal longitude, so [parseFloat] reads a finite number
    from both or, for a match that carries neither, from none. *)
Definition pairedAnswers (geo : Geocoder) : Prop :=
  forall n q la lo ms,
    geo n q = GeoMatches ((la, lo) :: ms) -> isFinite la = isFinite lo.

(** The stored document: [db.data] and the document last written. *)
Definition stored (w : World) : Doc * Doc := (data w, file w).

(** What a reader of [db.json] gets back for a document that was
    written. *)
Definition onDisk (d : Doc) : Doc :=
  mkDoc (map Admin.wire (addresses d)) (rules d) (adminPassword d).

(** The documents written, in order. *)
Definition writes (evs : list Event) : list Doc :=
  flat_map (fun e => match e with Write d => [d] | _ => [] end) evs.

(** After a request [db.data] and the document last written are as before
    and the request wrote nothing, or the request wrote once and what it
    wrote is [db.data]. *)
Definition Settled (w : World) (out : Outcome) : Prop :=
  (writes (events out) = []
   /\ data (world out) = data w /\ file (world out) = file w)
  \/ (writes (events out) = [data (world out)]
      /\ file (world out) = data (world out)).

(** [replaceAddresses(listAddresses())]: the list GET /api/addresses
    returns is posted back. *)
Definition listed (out : Outcome) : value :=
  match reply out with
  | Sent (mkResponse _ (JsonVal v)) => v
  | _ => VUndefined
  end.

Definition roundTrip (v : Variant) (geo : Geocoder) (sess : Session)
           (w : World) : Outcome :=
  postAddresses v geo (VObj [("addresses", listed (getAddresses sess w))])
                sess w.

(** A runtime that meets the contract: the hash is the password behind a
    marker. *)
Definition markerHash (data : value) (salt : nat) : option string :=
  match data with
  | VStr p => Some ("$2b$10$" ++ p)%string
  | _ => None
  end.

Definition markerCompare (data : value) (h : string) : option bool :=
  match data with
  | VStr p => Some (String.eqb h ("$2b$10$" ++ p)%string)
  | _ => None
  end.

#[export] Instance markerRuntime : Runtime.
Proof.
  refine {| bcrypt_hash := markerHash;
            bcrypt_compare := markerCompare;
            toNumber := fun _ => PrimFloat.nan |}.
  - discriminate.
  - discriminate.
  - intros p q salt h E. inversion E; subst. simpl. f_equal.
    apply String.eqb_sym.
Defined.

(** An element of the submitted array that is not [null] or [undefined]. *)
Definition present (a : value) : Prop := isNullish a = false.


(** [bcrypt.compare] rejects data that is not a string (and not a Buffer,
    which no request body holds): "data and hash arguments required",
    "data and hash must be strings". *)
Definition rejectsNonStrings (R : Runtime) : Prop :=
  forall (data : value) (h : string),
    (forall s, data <> VStr s) -> bcrypt_compare data h = None.

(** [bcrypt.compare] resolved to [true] against the stored hash. *)
Definition verifies {R : Runtime} (password : value) (w : World) : bool :=
  match bcrypt_compare password (adminPassword (data w)) with
  | Some true => true
  | _ => false
  end.

(** The replies the properties name. *)
Definition saved : Reply := json 200 true "Addresses updated successfully.".
Definition unauthorized : Reply := json 401 false "Unauthorized. Please sign in.".
Definition toAdminPage : Reply := Sent (mkResponse 302 (Redirect "/admin.html")).

(** ** Values for the examples *)

#[local] Set Warnings "-inexact-float".

(** A world after start-up, the admin's session and a visitor's, and three
    geocoding services. *)
Definition exampleDoc : Doc := mkDoc [] "be kind" "$2b$10$stored".
Definition exampleWorld : World := mkWorld exampleDoc exampleDoc 0.
Definition admin : Session := mkSession true.
Definition visitor : Session := mkSession false.
Definition alwaysFinds : Geocoder :=
  fun _ _ => GeoMatches [((-34.33)%float, 146.9%float)].
Definition neverFinds : Geocoder := fun _ _ => GeoMatches [].
Definition firstCallRaises : Geocoder :=
  fun n _ => match n with
             | O => GeoFails
             | S _ => GeoMatches [((-34.33)%float, 146.9%float)]
             end.

(** Addresses. *)
Definition mainSt : string := "12 Main St ardlethan nsw 2665".
Definition mirroolSt : string := "3 Mirrool St ardlethan nsw 2665".

Definition twoAddresses : list value :=
  [VObj [("text", VStr mainSt)];
   VObj [("text", VStr mirroolSt);
         ("lat", VNum (-34.36)%float); ("lon", VNum 146.9%float)]].

Definition onEquator : value :=
  VObj [("text", VStr mainSt); ("lat", VNum 0%float); ("lon", VNum 146.9%float)].

Definition movedSouth : value :=
  VObj [("text", VStr mainSt); ("lat", VNum (-34.33)%float);
        ("lon", VNum 146.9%float)].

(** A save of two new addresses where the first request raises. *)
Definition raisedThenFound : Outcome :=
  postAddresses Secured firstCallRaises
    (VObj [("addresses", VArr [VObj [("text", VStr mainSt)];
                               VObj [("text", VStr mirroolSt)]])])
    admin exampleWorld.

(** The pages under [public/] and the configured username. *)
Definition pages (p : string) : bool :=
  String.eqb p "/admin.html" || String.eqb p "/signin.html"
  || String.eqb p "/index.html".

Definition exampleConfig : Config := mkConfig (Some "admin") pages.

(** A world whose stored hash is that of "password123", and the forms. *)
Definition stubbornWorld : World :=
  mkWorld (mkDoc [] "be kind" "$2b$10$password123")
          (mkDoc [] "be kind" "$2b$10$password123") 0.

Definition signinForm (username password : string) : value :=
  VObj [("username", VStr username); ("password", VStr password)].

Definition passwordForm (currentPassword newPassword : string) : value :=
  VObj [("currentPassword", VStr currentPassword);
        ("newPassword", VStr newPassword)].

Definition goodSignin : Outcome :=
  postSignin Secured (Some "admin") (signinForm "admin" "password123")
             visitor stubbornWorld.

Definition passwordChanged : Outcome :=
  postChangePassword 7 (passwordForm "password123" "pumpkin-patch")
                     admin stubbornWorld.

(** ** Start-up *)

Module Startup.

(** The default data of [new Low(adapter, ...)]. *)
Definition defaultData : Doc := mkDoc [] EmptyString "password123".

(** [startServer] up to [app.listen].  [fileContent] is what [db.read()]
    finds in [db.json] ([None] when the file is missing or empty); the
    world is the one the routes start from, with a fresh rate limiter.
    [None] when [bcrypt.hash] rejects. *)
Definition startServer `{Runtime} (fileContent : option Doc) (salt : nat)
  : option World * list Event :=
  let d := match fileContent with Some d => d | None => defaultData end in
  let password := adminPassword d in
  if truthy (VStr password) && negb (String.prefix "$2" password) then
    match bcrypt_hash (VStr password) salt with
    | None => (None, [Hash (VStr password)])
    | Some hashedPassword =>
        let d' := setAdminPassword d hashedPassword in
        (Some (mkWorld d' d' 0), [Hash (VStr password); Write d'; Write d'])
    end
  else (Some (mkWorld d d 0), [Write d]).

End Startup.
Export Startup.

(** ** The landing page (the map) *)

Module Landing.

(** [s.replace(/c/g, entity)] for a single character [c]. *)
Fixpoint replaceAll (c : ascii) (entity : string) (s : string) : string :=
  match s with
  | EmptyString => EmptyString
  | String x s' =>
      if Ascii.eqb x c then (entity ++ replaceAll c entity s')%string
      else String x (replaceAll c entity s')
  end.

(** [instructions.replace(/</g, "&lt;").replace(/>/g, "&gt;")]. *)
Definition sanitize (instructions : string) : string :=
  replaceAll ">"%char "&gt;" (replaceAll "<"%char "&lt;" instructions).

(** [address.lat && address.lon] as the [if] reads it; [None] when the
    address is [null]. *)
Definition plotted (address : value) : option bool :=
  match prop address "lat", prop address "lon" with
  | Some lat, Some lon => Some (truthy lat && truthy lon)
  | _, _ => None
  end.

(** The sanitized instructions of the popup: [Some None] when the address
    has none, [None] when [instructions] is truthy and not a string, which
    has no [replace]. *)
Definition popupNote (address : value) : option (option string) :=
  match field address "instructions" with
  | VStr s => if Admin.isEmpty s then Some None else Some (Some (sanitize s))
  | v => if truthy v then None else Some None
  end.

(** A marker on the map: its position, the text shown in bold and the
    sanitized instructions under it. *)
Record Marker : Type := mkMarker {
  latLng : value * value;
  title : value;
  note : option string
}.

(** The loop over the addresses: the markers put on the map, in order, and
    whether the loop ran to its end or raised (at an address that is
    [null], at a text that the template of the popup cannot turn into a
    string, or at instructions without [replace]). *)
Fixpoint markers (addresses : list value) : list Marker * bool :=
  match addresses with
  | [] => ([], true)
  | address :: rest =>
      match plotted address with
      | None => ([], false)
      | Some false => markers rest
      | Some true =>
          if stringifies (field address "text") then
            match popupNote address with
            | None => ([], false)
            | Some n =>
                let m := mkMarker (field address "lat", field address "lon")
                                  (field address "text") n in
                (m :: fst (markers rest), snd (markers rest))
            end
          else ([], false)
      end
  end.

Inductive View : Type :=
| FitBounds (markerCoords : list (value * value))
| SetView (center : value * value) (zoom : nat).

(** The view chosen after the loop. *)
Definition chooseView (markerCoords : list (value * value)) : View :=
  match markerCoords with
  | [] => SetView (VNum (-33)%float, VNum 146.9%float) 6
  | [c] => SetView c 13
  | _ => FitBounds markerCoords
  end.

End Landing.
Export Landing.

(** ** The forms of the admin page *)

Module Forms.

(** The body the rules form posts. *)
Definition rulesForm (rulesContent : string) : value :=
  Admin.wire (VObj [("rules", VStr rulesContent)]).

(** The submit handler of the password form: the message it shows without
    sending anything, or the body it posts. *)
Definition changePasswordForm (currentPassword newPassword
                               confirmPassword : string) : string + value :=
  if negb (String.eqb newPassword confirmPassword) then
    inl "New passwords do not match."
  else if Nat.ltb (String.length newPassword) 8 then
    inl "New password must be at least 8 characters long."
  else
    inr (Admin.wire (VObj [("currentPassword", VStr currentPassword);
                           ("newPassword", VStr newPassword)])).

End Forms.
Export Forms.

(** ** More vocabulary *)

(** How one request may change the world: not at all but for the limiter's
    counter, or by one write that replaces one field of the document. *)
Inductive Change (w : World) : World -> Prop :=
| Unchanged (n : nat) : Change w (mkWorld (data w) (file w) n)
| RulesSet (r : string) (n : nat) :
    Change w (mkWorld (setRules (data w) r) (setRules (data w) r) n)
| AddressesSet (l : list value) (n : nat) :
    Change w (mkWorld (setAddresses (data w) l) (setAddresses (data w) l) n)
| PasswordSet (h : string) (n : nat) :
    Change w (mkWorld (setAdminPassword (data w) h)
                      (setAdminPassword (data w) h) n).

(** A run of sign-in form submissions by one client against the secured
    copy. *)
Fixpoint signinAttempts `{Runtime} (cfg : Config) (geo : Geocoder) (salt : nat)
         (forms : list (string * string)) (sess : Session) (w : World)
  : Session * World :=
  match forms with
  | [] => (sess, w)
  | (username, password) :: rest =>
      let out := securedApp cfg geo salt
                   (mkRequest POST "/signin" (signinForm username password))
                   sess w in
      signinAttempts cfg geo salt rest (session out) (world out)
  end.

Definition tooMany : Reply :=
  Sent (mkResponse 429
          (Text "Too many login or password change attempts from this IP, please try again after 15 minutes")).

(** A handler that leaves the part [f] of [db.data] as it is. *)
Definition Keeps {A : Type} (f : Doc -> A) (h : Handler) : Prop :=
  forall sess w, f (data (world (h sess w))) = f (data w).

(** Either copy of the server. *)
Definition serverApp `{Runtime} (v : Variant) : Config -> Geocoder -> nat ->
                                               Request -> Handler :=
  match v with
  | Plain => plainApp
  | Secured => securedApp
  end.

(** Ten sign-in submissions with wrong passwords. *)
Definition tenWrongGuesses : list (string * string) :=
  [("admin", "a"); ("admin", "b"); ("admin", "c"); ("admin", "d");
   ("admin", "e"); ("admin", "f"); ("admin", "g"); ("admin", "h");
   ("admin", "i"); ("admin", "j")].

(** An element that is an object. *)
Definition isObject (a : value) : Prop := exists o, a = VObj o.

(** The character [c] does not occur in a string. *)
Fixpoint lacks (c : ascii) (s : string) : bool :=
  match s with
  | EmptyString => true
  | String x s' => negb (Ascii.eqb x c) && lacks c s'
  end.

(** No [<] and no [>] in a string. *)
Fixpoint noAngle (s : string) : bool :=
  match s with
  | EmptyString => true
  | String c s' =>
      negb (Ascii.eqb c "<"%char) && negb (Ascii.eqb c ">"%char) && noAngle s'
  end.

(** * Properties *)

(** ** Objects *)

Lemma hasOwn_assign (k k' : string) (v : value) (o : obj) :
  hasOwn k (assign k' v o) = String.eqb k k' || hasOwn k o.
Proof.
  induction o as [|[k1 v1] o IH]; simpl.
  - reflexivity.
  - destruct (String.eqb_spec k' k1) as [->|Hne]; simpl.
    + destruct (String.eqb k k1); reflexivity.
    + rewrite IH. destruct (String.eqb k k'), (String.eqb k k1); reflexivity.
Qed.

Lemma hasOwn_remove (k k' : string) (o : obj) :
  hasOwn k (remove k' o) = negb (String.eqb k k') && hasOwn k o.
Proof.
  induction o as [|[k1 v1] o IH]; simpl.
  - now rewrite andb_false_r.
  - destruct (String.eqb_spec k' k1) as [->|Hne]; simpl.
    + rewrite IH. destruct (String.eqb k k1); reflexivity.
    + rewrite IH. destruct (String.eqb_spec k k') as [->|Hk]; simpl.
      * apply String.eqb_neq in Hne. now rewrite Hne.
      * reflexivity.
Qed.

Lemma lookup_assign_other (k k' : string) (v : value) (o : obj) :
  k <> k' -> lookup k (assign k' v o) = lookup k o.
Proof.
  intros Hne. apply String.eqb_neq in Hne.
  induction o as [|[k1 v1] o IH]; simpl.
  - now rewrite Hne.
  - destruct (String.eqb_spec k' k1) as [->|Hk]; simpl.
    + now rewrite Hne.
    + now rewrite IH.
Qed.

Lemma lookup_assign_same (k : string) (v : value) (o : obj) :
  lookup k (assign k v o) = v.
Proof.
  induction o as [|[k1 v1] o IH]; simpl.
  - now rewrite String.eqb_refl.
  - destruct (String.eqb_spec k k1) as [->|Hne]; simpl.
    + now rewrite String.eqb_refl.
    + apply String.eqb_neq in Hne. now rewrite Hne.
Qed.

Lemma lookup_remove_other (k k' : string) (o : obj) :
  k <> k' -> lookup k (remove k' o) = lookup k o.
Proof.
  intros Hne. apply String.eqb_neq in Hne.
  induction o as [|[k1 v1] o IH]; simpl.
  - reflexivity.
  - destruct (String.eqb_spec k' k1) as [->|Hk]; simpl.
    + now rewrite Hne.
    + now rewrite IH.
Qed.

(** ** The geocoding loop *)

Ltac nullish_cases a H :=
  destruct a; simpl in H; try discriminate H.

Lemma needsGeocode_defined (a : value) :
  isNullish a = false -> needsGeocode a = Some (needs a).
Proof.
  intros H. unfold needs.
  nullish_cases a H; unfold needsGeocode; simpl; try reflexivity.
  destruct (truthy (lookup "text" fields)
            && (negb (truthy (lookup "lat" fields))
                || negb (truthy (lookup "lon" fields)))); reflexivity.
Qed.

Lemma needsGeocode_nullish (a : value) :
  isNullish a = true -> needsGeocode a = None.
Proof. destruct a; simpl; intros H; try discriminate H; reflexivity. Qed.

Lemma needs_is_object (a : value) :
  needs a = true -> exists o, a = VObj o.
Proof.
  unfold needs, needsGeocode.
  destruct a; simpl; try discriminate. intros _. now exists fields.
Qed.

(** One turn of the loop on an address that is not [null] or
    [undefined]. *)
Lemma geocodeOne_defined (geo : Geocoder) (n : nat) (a : value) :
  isNullish a = false ->
  geocodeOne geo n a =
    Some (if needs a then
            if stringifies (field a "text") then
              match geo n (field a "text") with
              | GeoFails => (a, [Fetch (field a "text"); ConsoleError])
              | GeoMatches [] => (a, [Fetch (field a "text"); Delay 1000])
              | GeoMatches ((la, lo) :: _) =>
                  (setProp (setProp a "lat" (VNum la)) "lon" (VNum lo),
                   [Fetch (field a "text"); Delay 1000])
              end
            else (a, [ConsoleError])
          else (a, [])).
Proof.
  intros H. unfold geocodeOne. rewrite (needsGeocode_defined a H).
  assert (Hp : prop a "text" = Some (field a "text")).
  { unfold field. nullish_cases a H; reflexivity. }
  rewrite Hp. destruct (needs a).
  - destruct (stringifies (field a "text")); [|reflexivity].
    destruct (geo n (field a "text")) as [|[|[la lo] ms]]; reflexivity.
  - reflexivity.
Qed.

Lemma geocodeOne_nullish (geo : Geocoder) (n : nat) (a : value) :
  isNullish a = true -> geocodeOne geo n a = None.
Proof.
  intros H. unfold geocodeOne. now rewrite (needsGeocode_nullish a H).
Qed.

(** A request is sent exactly for a selected address whose text has a
    string. *)
Lemma sendsRequest_defined (a : value) :
  isNullish a = false ->
  sendsRequest a = needs a && stringifies (field a "text").
Proof.
  intros H. unfold sendsRequest. rewrite (needsGeocode_defined a H).
  assert (Hp : prop a "text" = Some (field a "text")).
  { unfold field. nullish_cases a H; reflexivity. }
  rewrite Hp. now destruct (needs a).
Qed.


(** A text that is a string, a number or a boolean always has a string. *)
Lemma sendsRequest_string (o : obj) (text : string) :
  lookup "text" o = VStr text ->
  sendsRequest (VObj o) = needs (VObj o).
Proof.
  intros Ht. rewrite (sendsRequest_defined (VObj o) eq_refl).
  unfold field. simpl. rewrite Ht. simpl. apply andb_true_r.
Qed.

(** An address whose [lat] and [lon] are both truthy is left as it is and
    no request is made for it. *)
Lemma geocodeOne_truthy_coordinates (geo : Geocoder) (n : nat) (a : value) :
  truthy (field a "lat") = true ->
  truthy (field a "lon") = true ->
  geocodeOne geo n a = Some (a, []).
Proof.
  intros Hlat Hlon.
  assert (H : isNullish a = false) by (destruct a; simpl in *; congruence).
  rewrite (geocodeOne_defined geo n a H).
  assert (Hn : needs a = false).
  { unfold needs, needsGeocode.
    destruct a; simpl in *; try discriminate; try reflexivity.
    unfold field in Hlat, Hlon. simpl in Hlat, Hlon.
    rewrite Hlat, Hlon. simpl. now rewrite andb_false_r. }
  now rewrite Hn.
Qed.

Lemma requests_needs (a : value) :
  isNullish a = false ->
  requests a = if needs a && stringifies (field a "text") then 1 else 0.
Proof.
  intros H. unfold requests. now rewrite (sendsRequest_defined a H).
Qed.

Lemma present_map_VObj (l : list obj) : Forall present (map VObj l).
Proof. induction l; constructor; [reflexivity | assumption]. Qed.

(** The cases of one turn of the loop on a present address. *)
Ltac loop_cases geo n a :=
  destruct (needs a);
  [destruct (stringifies (field a "text"));
   [destruct (geo n (field a "text")) as [|[|[? ?] ?]]|]|].

(** The loop runs to its end when no element is [null] or [undefined], and
    keeps the length of the list. *)
Lemma geocodeAll_succeeds (geo : Geocoder) (l : list value) :
  Forall present l ->
  forall n, exists l', fst (geocodeAll geo n l) = Some l'
                       /\ List.length l' = List.length l.
Proof.
  induction 1 as [|a l Ha _ IH]; intros n; simpl.
  - now exists [].
  - rewrite (geocodeOne_defined geo n a Ha).
    destruct (IH (n + requests a)) as [l' [E L]].
    loop_cases geo n a;
      simpl; rewrite E; simpl; eexists; (split; [reflexivity|simpl; now rewrite L]).
Qed.

(** It raises when an element is [null] or [undefined]. *)
Lemma geocodeAll_throws (geo : Geocoder) (l : list value) :
  Exists (fun a => isNullish a = true) l ->
  forall n, fst (geocodeAll geo n l) = None.
Proof.
  induction 1 as [a l Ha|a l _ IH]; intros n; simpl.
  - now rewrite (geocodeOne_nullish geo n a Ha).
  - destruct (geocodeOne geo n a) as [[a' evs]|]; [|reflexivity].
    simpl. now rewrite IH.
Qed.


(** The loop writes nothing. *)
Lemma geocodeAll_no_write (geo : Geocoder) (l : list value) :
  forall n, forallb (fun e => negb (isWrite e)) (snd (geocodeAll geo n l)) = true.
Proof.
  induction l as [|a l IH]; intros n; simpl.
  - reflexivity.
  - unfold geocodeOne.
    destruct (needsGeocode a) as [[|]|]; try reflexivity.
    + destruct (prop a "text") as [text|]; [|reflexivity].
      destruct (stringifies text); [|simpl; apply IH].
      destruct (geo n text) as [|[|[la lo] ms]]; simpl; apply IH.
    + simpl. apply IH.
Qed.



(** Coordinates stay paired: a turn of the loop sets both or none, and the
    service answers with both or none. *)
Lemma geocodeOne_paired (geo : Geocoder) (n : nat) (a a' : value)
      (evs : list Event) :
  pairedAnswers geo ->
  geocodeOne geo n a = Some (a', evs) ->
  coordinatesPaired a -> coordinatesPaired a'.
Proof.
  intros Hgeo E P.
  destruct (isNullish a) eqn:Hnull.
  - now rewrite (geocodeOne_nullish geo n a Hnull) in E.
  - rewrite (geocodeOne_defined geo n a Hnull) in E.
    destruct (needs a) eqn:Hneeds.
    + destruct (needs_is_object a Hneeds) as [o ->].
      destruct (stringifies (field (VObj o) "text"));
        [|now inversion E; subst].
      destruct (geo n (field (VObj o) "text")) as [|[|[la lo] ms]] eqn:Eg;
        inversion E; subst; try exact P.
      unfold coordinatesPaired, hasCoordinate, field. simpl.
      rewrite lookup_assign_other by discriminate.
      rewrite !lookup_assign_same.
      exact (Hgeo _ _ _ _ _ Eg).
    + now inversion E; subst.
Qed.

Lemma geocodeAll_paired (geo : Geocoder) (l : list value) :
  pairedAnswers geo ->
  Forall coordinatesPaired l ->
  forall n l', fst (geocodeAll geo n l) = Some l' ->
               Forall coordinatesPaired l'.
Proof.
  intros Hgeo.
  induction 1 as [|a l Pa _ IH]; intros n l' E; simpl in E.
  - inversion E. constructor.
  - destruct (geocodeOne geo n a) as [[a' evs]|] eqn:E1; [|discriminate E].
    simpl in E.
    destruct (fst (geocodeAll geo (n + requests a) l))
      as [r|] eqn:E2; [|discriminate E].
    inversion E; subst. constructor.
    + exact (geocodeOne_paired geo n a a' evs Hgeo E1 Pa).
    + exact (IH _ _ E2).
Qed.

(** With a service that never raises, every request is followed by the
    delay. *)
Lemma geocodeAll_spaced (geo : Geocoder) :
  (forall n q, geo n q <> GeoFails) ->
  forall l n rest,
    spacedFrom 1000 true (snd (geocodeAll geo n l) ++ rest)
    = spacedFrom 1000 true rest.
Proof.
  intros Hgeo. induction l as [|a l IH]; intros n rest; simpl.
  - reflexivity.
  - unfold geocodeOne.
    destruct (needsGeocode a) as [[|]|]; try reflexivity.
    + destruct (prop a "text") as [text|]; [|reflexivity].
      destruct (stringifies text); [|simpl; apply IH].
      destruct (geo n text) as [|[|[la lo] ms]] eqn:E; simpl.
      * now apply Hgeo in E.
      * apply IH.
      * apply IH.
    + simpl. apply IH.
Qed.

Lemma geocodeAll_delayed (geo : Geocoder) :
  (forall n q, geo n q <> GeoFails) ->
  forall l n rest,
    delayedAfterEach 1000 (snd (geocodeAll geo n l) ++ rest)
    = delayedAfterEach 1000 rest.
Proof.
  intros Hgeo. induction l as [|a l IH]; intros n rest; simpl.
  - reflexivity.
  - unfold geocodeOne.
    destruct (needsGeocode a) as [[|]|]; try reflexivity.
    + destruct (prop a "text") as [text|]; [|reflexivity].
      destruct (stringifies text); [|simpl; apply IH].
      destruct (geo n text) as [|[|[la lo] ms]] eqn:E; simpl.
      * now apply Hgeo in E.
      * apply IH.
      * apply IH.
    + simpl. apply IH.
Qed.

(** ** POST /api/addresses *)

(** The handler on an array without [null] or [undefined]: the loop runs,
    then one write replaces the list. *)
Lemma postAddresses_array (v : Variant) (geo : Geocoder) (body : value)
      (l : list value) (sess : Session) (w : World) :
  prop body "addresses" = Some (VArr l) ->
  Forall present l ->
  exists l',
    fst (geocodeAll geo 0 l) = Some l' /\
    List.length l' = List.length l /\
    postAddresses v geo body sess w =
      mkOutcome saved sess
                (written w (setAddresses (data w) l'))
                (snd (geocodeAll geo 0 l) ++ [Write (setAddresses (data w) l')]).
Proof.
  intros Hb Hl. destruct (geocodeAll_succeeds geo l Hl 0) as [l' [E L]].
  exists l'. split; [exact E|]. split; [exact L|].
  unfold postAddresses. rewrite Hb.
  destruct (geocodeAll geo 0 l) as [r evs]. simpl in E. now subst r.
Qed.

Lemma postAddresses_throws (v : Variant) (geo : Geocoder) (body : value)
      (l : list value) (sess : Session) (w : World) :
  prop body "addresses" = Some (VArr l) ->
  Exists (fun a => isNullish a = true) l ->
  reply (postAddresses v geo body sess w) = Thrown
  /\ world (postAddresses v geo body sess w) = w.
Proof.
  intros Hb Hl. pose proof (geocodeAll_throws geo l Hl 0) as E.
  unfold postAddresses. rewrite Hb.
  destruct (geocodeAll geo 0 l) as [r evs]. simpl in E. subst r. now split.
Qed.

(** The stored document changes in no other way: in every case the world
    afterwards is the one before, or the one before with the list
    replaced and written. *)
Lemma postAddresses_world (v : Variant) (geo : Geocoder) (body : value)
      (sess : Session) (w : World) :
  world (postAddresses v geo body sess w) = w
  \/ exists l', world (postAddresses v geo body sess w)
                = written w (setAddresses (data w) l').
Proof.
  unfold postAddresses.
  destruct (prop body "addresses") as [[| | | | |l|]|]; simpl; auto.
  destruct (geocodeAll geo 0 l) as [[l'|] evs]; simpl; eauto.
Qed.

Lemma postAddresses_throws_outcome (v : Variant) (geo : Geocoder)
      (body : value) (l : list value) (sess : Session) (w : World) :
  prop body "addresses" = Some (VArr l) ->
  Exists (fun a => isNullish a = true) l ->
  postAddresses v geo body sess w
  = mkOutcome Thrown sess w (snd (geocodeAll geo 0 l)).
Proof.
  intros Hb Hl. pose proof (geocodeAll_throws geo l Hl 0) as E.
  unfold postAddresses. rewrite Hb.
  destruct (geocodeAll geo 0 l) as [r evs]. simpl in E. now subst r.
Qed.

Lemma filter_isWrite_none (evs : list Event) :
  forallb (fun e => negb (isWrite e)) evs = true -> filter isWrite evs = [].
Proof.
  induction evs as [|e evs IH]; simpl; [reflexivity|].
  intros H. apply andb_true_iff in H as [He Hevs].
  destruct (isWrite e); [discriminate He | now apply IH].
Qed.

(** C6.  What the handler does with the [addresses] of the body.  A value
    that is not an array is answered with 400 and nothing changes.  An array
    none of whose elements is [null] is geocoded and then replaces the
    stored list whole, by the one write of the request, which comes last.
    An array that holds [null] is an array, yet it is neither saved nor
    answered with 400: reading [address.text] raises a TypeError that
    nothing catches, the handler ends without a reply, and nothing is
    written.  The same happens when the request has no parsed body. *)
Theorem postAddresses_validates_then_replaces :
  forall (v : Variant) (geo : Geocoder) (body : value) (sess : Session)
         (w : World),
    (forall x, prop body "addresses" = Some x -> isArray x = false ->
       postAddresses v geo body sess w
       = mkOutcome (json 400 false (addressesError v)) sess w [])
    /\ (forall l, prop body "addresses" = Some (VArr l) -> Forall present l ->
          exists l' evs,
            geocodeAll geo 0 l = (Some l', evs) /\
            List.length l' = List.length l /\
            filter isWrite evs = [] /\
            postAddresses v geo body sess w
            = mkOutcome saved sess
                (mkWorld (mkDoc l' (rules (data w)) (adminPassword (data w)))
                         (mkDoc l' (rules (data w)) (adminPassword (data w)))
                         (hits w))
                (evs ++ [Write (mkDoc l' (rules (data w))
                                      (adminPassword (data w)))]))
    /\ (forall l, prop body "addresses" = Some (VArr l) ->
          Exists (fun a => isNullish a = true) l ->
          reply (postAddresses v geo body sess w) = Thrown
          /\ world (postAddresses v geo body sess w) = w
          /\ filter isWrite (events (postAddresses v geo body sess w)) = [])
    /\ (isNullish body = true ->
        postAddresses v geo body sess w = mkOutcome Thrown sess w []).
Proof.
  intros v geo body sess w. split; [|split; [|split]].
  - intros x Hx Harr. unfold postAddresses. rewrite Hx.
    destruct x; try reflexivity. discriminate Harr.
  - intros l Hb Hl.
    destruct (postAddresses_array v geo body l sess w Hb Hl) as [l' [E [L P]]].
    exists l', (snd (geocodeAll geo 0 l)). repeat split.
    + rewrite <- E. now destruct (geocodeAll geo 0 l).
    + exact L.
    + apply filter_isWrite_none, geocodeAll_no_write.
    + exact P.
  - intros l Hb Hl.
    rewrite (postAddresses_throws_outcome v geo body l sess w Hb Hl). simpl.
    repeat split. apply filter_isWrite_none, geocodeAll_no_write.
  - intros Hnull. destruct body; try discriminate Hnull; reflexivity.
Qed.

(** C6 at [[null]]: the body holds an array, the request is not answered
    and the stored list is not replaced. *)
Lemma array_with_null_is_not_saved :
  isArray (field (VObj [("addresses", VArr [VNull])]) "addresses") = true
  /\ reply (postAddresses Secured neverFinds
              (VObj [("addresses", VArr [VNull])]) admin exampleWorld)
     = Thrown
  /\ world (postAddresses Secured neverFinds
              (VObj [("addresses", VArr [VNull])]) admin exampleWorld)
     = exampleWorld
  /\ filter isWrite
       (events (postAddresses Secured neverFinds
                  (VObj [("addresses", VArr [VNull])]) admin exampleWorld))
     = [].
Proof.
  split; [reflexivity|].
  destruct (postAddresses_validates_then_replaces Secured neverFinds
              (VObj [("addresses", VArr [VNull])]) admin exampleWorld)
    as [_ [_ [Hnull _]]].
  apply (Hnull [VNull]); [reflexivity|].
  constructor. reflexivity.
Defined.

(** The scenario of the specification: the admin submits one address
    without coordinates, the service finds it, and the address is stored
    with the coordinates and listed so. *)
Example geocoded_save :
  postAddresses Secured alwaysFinds
    (VObj [("addresses", VArr [VObj [("text", VStr mainSt)]])])
    admin exampleWorld
  = mkOutcome saved admin
      (written exampleWorld
         (setAddresses exampleDoc
            [VObj [("text", VStr mainSt); ("lat", VNum (-34.33)%float);
                   ("lon", VNum 146.9%float)]]))
      [Fetch (VStr mainSt); Delay 1000;
       Write (setAddresses exampleDoc
                [VObj [("text", VStr mainSt); ("lat", VNum (-34.33)%float);
                       ("lon", VNum 146.9%float)]])]
  /\ listed (getAddresses visitor
               (written exampleWorld
                  (setAddresses exampleDoc
                     [VObj [("text", VStr mainSt); ("lat", VNum (-34.33)%float);
                            ("lon", VNum 146.9%float)]])))
     = VArr [VObj [("text", VStr mainSt); ("lat", VNum (-34.33)%float);
                   ("lon", VNum 146.9%float)]].
Proof. split; reflexivity. Qed.

(** What [db.json] keeps of the coordinates.  The JSON text of an address
    (an object has each of its keys once) holds a number exactly where the
    address has a finite number, so an address is paired in the file
    exactly when it is paired in memory. *)
Lemma wire_absent (k : string) (o : obj) :
  ~ In k (map fst o) -> field (Admin.wire (VObj o)) k = VUndefined.
Proof.
  unfold field. simpl.
  induction o as [|[k1 x] o IH]; intros Hk; [reflexivity|].
  assert (Hne : String.eqb k k1 = false)
    by (apply String.eqb_neq; intros ->; apply Hk; now left).
  assert (Hk' : ~ In k (map fst o)) by (intros X; apply Hk; now right).
  destruct x; simpl; rewrite ?Hne; exact (IH Hk').
Qed.

Lemma wire_keeps_coordinate (k : string) (o : obj) :
  NoDup (map fst o) ->
  hasCoordinate (Admin.wire (VObj o)) k = hasCoordinate (VObj o) k.
Proof.
  unfold hasCoordinate.
  induction o as [|[k1 x] o IH]; intros Hd; [reflexivity|].
  inversion Hd as [|? ? Hk1 Hd']; subst.
  specialize (IH Hd').
  destruct (String.eqb_spec k k1) as [->|Hne].
  - pose proof (wire_absent k1 o Hk1) as Habs.
    unfold field in *. simpl in *.
    destruct x; simpl; rewrite ?String.eqb_refl; try reflexivity.
    + now rewrite Habs.
    + unfold isFinite.
      destruct (PrimFloat.is_nan x || PrimFloat.is_infinity x) eqn:E;
        [reflexivity|].
      destruct (PrimFloat.is_zero x); [reflexivity|].
      now rewrite E.
  - apply String.eqb_neq in Hne.
    unfold field in *. simpl in *.
    destruct x; simpl; rewrite ?Hne; exact IH.
Qed.

Lemma onDisk_keeps_pairing (a : value) :
  uniqueKeys a ->
  coordinatesPaired (Admin.wire a) <-> coordinatesPaired a.
Proof.
  intros Hd. unfold coordinatesPaired.
  destruct a; try (split; reflexivity).
  - unfold hasCoordinate, field. simpl.
    destruct (PrimFloat.is_nan x || PrimFloat.is_infinity x);
      [|destruct (PrimFloat.is_zero x)]; split; reflexivity.
  - now rewrite !(wire_keeps_coordinate _ fields Hd).
Qed.

Lemma keys_assign (k x : string) (v : value) (o : obj) :
  In x (map fst (assign k v o)) -> x = k \/ In x (map fst o).
Proof.
  induction o as [|[k1 v1] o IH]; simpl.
  - intros [E|[]]. now left.
  - destruct (String.eqb_spec k k1) as [->|Hne]; simpl.
    + intros [E|H]; [now left | right; now right].
    + intros [E|H]; [right; now left|].
      destruct (IH H) as [E|H']; [now left | right; now right].
Qed.

Lemma uniqueKeys_assign (k : string) (v : value) (o : obj) :
  NoDup (map fst o) -> NoDup (map fst (assign k v o)).
Proof.
  induction o as [|[k1 v1] o IH]; simpl; intros Hd.
  - constructor; [intros [] | constructor].
  - inversion Hd as [|? ? Hk1 Hd']; subst.
    destruct (String.eqb_spec k k1) as [->|Hne]; simpl.
    + now constructor.
    + constructor; [|now apply IH].
      intros H. destruct (keys_assign _ _ _ _ H) as [E|H'];
        [now apply Hne | now apply Hk1].
Qed.

Lemma geocodeOne_uniqueKeys (geo : Geocoder) (n : nat) (a a' : value)
      (evs : list Event) :
  geocodeOne geo n a = Some (a', evs) -> uniqueKeys a -> uniqueKeys a'.
Proof.
  intros E U.
  destruct (isNullish a) eqn:Hnull.
  - now rewrite (geocodeOne_nullish geo n a Hnull) in E.
  - rewrite (geocodeOne_defined geo n a Hnull) in E.
    destruct (needs a) eqn:Hneeds; [|now inversion E; subst].
    destruct (needs_is_object a Hneeds) as [o ->].
    destruct (stringifies (field (VObj o) "text"));
      [|now inversion E; subst].
    destruct (geo n (field (VObj o) "text")) as [|[|[la lo] ms]];
      inversion E; subst; try exact U.
    simpl. now apply uniqueKeys_assign, uniqueKeys_assign.
Qed.

Lemma geocodeAll_uniqueKeys (geo : Geocoder) (l : list value) :
  Forall uniqueKeys l ->
  forall n l', fst (geocodeAll geo n l) = Some l' -> Forall uniqueKeys l'.
Proof.
  induction 1 as [|a l Ua _ IH]; intros n l' E; simpl in E.
  - inversion E. constructor.
  - destruct (geocodeOne geo n a) as [[a' evs]|] eqn:E1; [|discriminate E].
    simpl in E.
    destruct (fst (geocodeAll geo (n + requests a) l))
      as [r|] eqn:E2; [|discriminate E].
    inversion E; subst. constructor.
    + exact (geocodeOne_uniqueKeys geo n a a' evs E1 Ua).
    + exact (IH _ _ E2).
Qed.


Lemma alwaysFinds_paired : pairedAnswers alwaysFinds.
Proof. intros n q la lo ms E. inversion E. reflexivity. Qed.

(** C3, amended: the save keeps coordinates paired.  When every submitted
    address has a numeric [lat] exactly when it has a numeric [lon], and
    every match of the service carries both numbers or neither, the save
    succeeds and every address of the stored list, in memory and as
    [db.json] holds it, has a numeric [lat] exactly when it has a numeric
    [lon], whether the requests find a match, find none or raise. *)
Theorem saved_coordinates_stay_paired :
  forall (v : Variant) (geo : Geocoder) (body : value) (l : list value)
         (sess : Session) (w : World),
    prop body "addresses" = Some (VArr l) ->
    Forall present l ->
    Forall coordinatesPaired l ->
    pairedAnswers geo ->
    reply (postAddresses v geo body sess w) = saved
    /\ Forall coordinatesPaired
              (addresses (data (world (postAddresses v geo body sess w))))
    /\ file (world (postAddresses v geo body sess w))
       = data (world (postAddresses v geo body sess w))
    /\ (Forall uniqueKeys l ->
        Forall coordinatesPaired
          (addresses
             (onDisk (file (world (postAddresses v geo body sess w)))))).
Proof.
  intros v geo body l sess w Hb Hl Hp Hgeo.
  destruct (postAddresses_array v geo body l sess w Hb Hl) as [l' [E [_ P]]].
  pose proof (geocodeAll_paired geo l Hgeo Hp 0 l' E) as Hpaired.
  rewrite P. simpl. split; [reflexivity|]. split; [exact Hpaired|].
  split; [reflexivity|].
  intros Hu. pose proof (geocodeAll_uniqueKeys geo l Hu 0 l' E) as Hu'.
  apply Forall_map, Forall_forall. intros a Ha.
  apply onDisk_keeps_pairing.
  - exact (proj1 (Forall_forall _ _) Hu' a Ha).
  - exact (proj1 (Forall_forall _ _) Hpaired a Ha).
Qed.

Lemma saved_coordinates_stay_paired_witness :
  reply (postAddresses Secured alwaysFinds
           (VObj [("addresses", VArr twoAddresses)]) admin exampleWorld)
  = saved
  /\ Forall coordinatesPaired
       (addresses (data (world (postAddresses Secured alwaysFinds
           (VObj [("addresses", VArr twoAddresses)]) admin exampleWorld))))
  /\ file (world (postAddresses Secured alwaysFinds
           (VObj [("addresses", VArr twoAddresses)]) admin exampleWorld))
     = data (world (postAddresses Secured alwaysFinds
           (VObj [("addresses", VArr twoAddresses)]) admin exampleWorld))
  /\ Forall coordinatesPaired
       (addresses (onDisk (file (world (postAddresses Secured alwaysFinds
           (VObj [("addresses", VArr twoAddresses)]) admin exampleWorld))))).
Proof.
  destruct (saved_coordinates_stay_paired Secured alwaysFinds
              (VObj [("addresses", VArr twoAddresses)]) twoAddresses
              admin exampleWorld eq_refl)
    as [Hr [Hm [Hf Hd]]].
  - repeat constructor.
  - repeat constructor.
  - exact alwaysFinds_paired.
  - split; [exact Hr|]. split; [exact Hm|]. split; [exact Hf|].
    apply Hd. repeat constructor; simpl; intuition discriminate.
Defined.

(** C3 as stated fails: an address submitted with [lat] alone, for which
    the service finds no match, is saved with [lat] and without [lon]. *)
Lemma partial_coordinates_are_persisted :
  postAddresses Secured neverFinds
    (VObj [("addresses",
            VArr [VObj [("text", VStr mainSt); ("lat", VNum (-34.33)%float)]])])
    admin exampleWorld
  = mkOutcome saved admin
      (written exampleWorld
         (mkDoc [VObj [("text", VStr mainSt); ("lat", VNum (-34.33)%float)]]
                "be kind" "$2b$10$stored"))
      [Fetch (VStr mainSt); Delay 1000;
       Write (mkDoc [VObj [("text", VStr mainSt); ("lat", VNum (-34.33)%float)]]
                    "be kind" "$2b$10$stored")]
  /\ hasCoordinate
       (VObj [("text", VStr mainSt); ("lat", VNum (-34.33)%float)]) "lat"
     = true
  /\ hasCoordinate
       (VObj [("text", VStr mainSt); ("lat", VNum (-34.33)%float)]) "lon"
     = false
  /\ ~ Forall coordinatesPaired
         (addresses (data (world (postAddresses Secured neverFinds
            (VObj [("addresses",
                    VArr [VObj [("text", VStr mainSt);
                                ("lat", VNum (-34.33)%float)]])])
            admin exampleWorld))))
  /\ ~ Forall coordinatesPaired
         (addresses (onDisk (file (world (postAddresses Secured neverFinds
            (VObj [("addresses",
                    VArr [VObj [("text", VStr mainSt);
                                ("lat", VNum (-34.33)%float)]])])
            admin exampleWorld))))).
Proof.
  split; [reflexivity|]. split; [reflexivity|]. split; [reflexivity|].
  split; intros H; inversion H as [|? ? Hp _]; subst; discriminate Hp.
Qed.

(** The address that the service answers without a latitude: in memory
    [lat] is NaN, in the file it is [null], and neither is a coordinate. *)
Example nan_is_no_coordinate :
  hasCoordinate (VObj [("text", VStr mainSt); ("lat", VNum PrimFloat.nan);
                       ("lon", VNum 146.9%float)]) "lat" = false
  /\ Admin.wire (VObj [("text", VStr mainSt); ("lat", VNum PrimFloat.nan);
                       ("lon", VNum 146.9%float)])
     = VObj [("text", VStr mainSt); ("lat", VNull); ("lon", VNum 146.9%float)]
  /\ addresses (onDisk (mkDoc [VObj [("lat", VNum PrimFloat.nan)]]
                              "be kind" "$2b$10$stored"))
     = [VObj [("lat", VNull)]].
Proof. repeat split. Qed.


Lemma writes_none (evs : list Event) :
  forallb (fun e => negb (isWrite e)) evs = true -> writes evs = [].
Proof.
  induction evs as [|e evs IH]; simpl; [reflexivity|].
  intros H. apply andb_true_iff in H as [He Hevs].
  destruct e; try discriminate He; simpl; now apply IH.
Qed.



(** The same batch without the [null]: the save succeeds, the first
    address is stored without coordinates and the second is geocoded. *)
Example failed_geocode_then_found :
  reply raisedThenFound = saved
  /\ addresses (data (world raisedThenFound))
     = [VObj [("text", VStr mainSt)];
        VObj [("text", VStr mirroolSt); ("lat", VNum (-34.33)%float);
              ("lon", VNum 146.9%float)]]
  /\ queries (events raisedThenFound) = [VStr mainSt; VStr mirroolSt].
Proof. repeat split. Qed.

(** What the loop does hold to: an address whose [lat] and [lon] are both
    truthy comes out of the save as it went in, at its place. *)
Lemma geocodeAll_keeps_truthy_coordinates (geo : Geocoder) (l : list value) :
  forall n l' i a,
    fst (geocodeAll geo n l) = Some l' ->
    nth_error l i = Some a ->
    truthy (field a "lat") = true ->
    truthy (field a "lon") = true ->
    nth_error l' i = Some a.
Proof.
  induction l as [|b l IH]; intros n l' i a E Hi Hlat Hlon.
  - destruct i; discriminate Hi.
  - simpl in E.
    destruct (geocodeOne geo n b) as [[b' evs]|] eqn:E1; [|discriminate E].
    simpl in E.
    destruct (fst (geocodeAll geo (n + requests b) l))
      as [r|] eqn:E2; [|discriminate E].
    inversion E; subst. destruct i as [|i]; simpl in *.
    + inversion Hi; subst.
      rewrite (geocodeOne_truthy_coordinates geo n a Hlat Hlon) in E1.
      now inversion E1.
    + exact (IH _ _ _ _ E2 Hi Hlat Hlon).
Qed.

Lemma movedSouth_differs : movedSouth <> onEquator.
Proof.
  intros H. apply (f_equal (fun a => truthy (field a "lat"))) in H.
  discriminate H.
Qed.

(** C2 at an address with [lat] equal to 0: the address has both
    coordinates, and still a request is sent for it and its latitude is
    overwritten with the answer. *)
Theorem zero_latitude_is_geocoded_again :
  hasProp onEquator "lat" = true
  /\ hasProp onEquator "lon" = true
  /\ needsGeocode onEquator = Some true
  /\ postAddresses Secured alwaysFinds (VObj [("addresses", VArr [onEquator])])
                   admin exampleWorld
     = mkOutcome saved admin
         (written exampleWorld (setAddresses exampleDoc [movedSouth]))
         [Fetch (VStr mainSt); Delay 1000;
          Write (setAddresses exampleDoc [movedSouth])]
  /\ movedSouth <> onEquator.
Proof. repeat split. exact movedSouth_differs. Qed.


(** C8 at a stored list that holds an address with [lat] equal to 0: no
    address lacks a coordinate, and the round trip changes the document,
    in memory and in the file. *)
Theorem round_trip_moves_zero_latitude :
  Forall (fun a => hasProp a "lat" = true /\ hasProp a "lon" = true)
         (addresses (data (written exampleWorld
                                   (setAddresses exampleDoc [onEquator]))))
  /\ stored (world (roundTrip Secured alwaysFinds admin
                      (written exampleWorld
                               (setAddresses exampleDoc [onEquator]))))
     = (setAddresses exampleDoc [movedSouth],
        setAddresses exampleDoc [movedSouth])
  /\ setAddresses exampleDoc [movedSouth]
     <> setAddresses exampleDoc [onEquator].
Proof.
  repeat split.
  - repeat constructor.
  - intros H. apply movedSouth_differs. now inversion H.
Qed.


(** X12: as long as no request raises, every request of a save is followed
    at once by the delay of a second, before the next request and before
    the write; so two requests are always a second apart. *)
Lemma postAddresses_spaced (v : Variant) (geo : Geocoder) (body : value)
      (sess : Session) (w : World) :
  (forall n q, geo n q <> GeoFails) ->
  delayedAfterEach 1000 (events (postAddresses v geo body sess w)) = true
  /\ spaced 1000 (events (postAddresses v geo body sess w)) = true.
Proof.
  intros Hgeo. unfold postAddresses, spaced.
  destruct (prop body "addresses") as [[| | | | |l|]|];
    try (split; reflexivity).
  destruct (geocodeAll geo 0 l) as [[l'|] evs] eqn:E; simpl;
    pose proof (geocodeAll_spaced geo Hgeo l 0) as S;
    pose proof (geocodeAll_delayed geo Hgeo l 0) as D;
    rewrite E in S, D; simpl in S, D.
  - now rewrite S, D.
  - specialize (S []). specialize (D []).
    rewrite app_nil_r in S, D. now split.
Qed.

(** C9 at a batch of two new addresses where the first request raises: the
    second request follows the first with no delay between them. *)
Theorem failed_request_is_not_followed_by_delay :
  events (postAddresses Secured firstCallRaises
            (VObj [("addresses", VArr [VObj [("text", VStr mainSt)];
                                       VObj [("text", VStr mirroolSt)]])])
            admin exampleWorld)
  = [Fetch (VStr mainSt); ConsoleError;
     Fetch (VStr mirroolSt); Delay 1000;
     Write (setAddresses exampleDoc
              [VObj [("text", VStr mainSt)];
               VObj [("text", VStr mirroolSt); ("lat", VNum (-34.33)%float);
                     ("lon", VNum 146.9%float)]])]
  /\ spaced 1000
       (events (postAddresses Secured firstCallRaises
                  (VObj [("addresses", VArr [VObj [("text", VStr mainSt)];
                                             VObj [("text", VStr mirroolSt)]])])
                  admin exampleWorld))
     = false.
Proof. split; reflexivity. Qed.

(** ** The session gate *)

Section Gate.

Context {R : Runtime}.
Variables (cfg : Config) (geo : Geocoder) (salt : nat).

(** In the secured copy the three POST routes that change the document
    answer a request without a session with 401 and change nothing: not the
    document, not the limiter's counter, and no event happens. *)
Lemma secured_mutations_need_session (req : Request) (sess : Session)
      (w : World) :
  user sess = false ->
  method req = POST ->
  path req = "/api/rules" \/ path req = "/api/addresses"
  \/ path req = "/api/change-password" ->
  securedApp cfg geo salt req sess w = mkOutcome unauthorized sess w [].
Proof.
  intros Hu Hm Hp. destruct req as [m p b]. simpl in Hm, Hp. subst m.
  unfold securedApp, serveStatic, route, isAuthenticated. simpl.
  destruct Hp as [-> | [-> | ->]]; simpl; now rewrite Hu.
Qed.

(** The route of the admin page by itself sends a request without a
    session to the sign-in page. *)
Lemma admin_route_redirects (req : Request) (sess : Session) (w : World) :
  user sess = false ->
  path req = "/admin.html" ->
  isAuthenticated req (adminPage cfg) sess w
  = mkOutcome (Sent (mkResponse 302 (Redirect "/signin.html"))) sess w [].
Proof.
  intros Hu Hp. unfold isAuthenticated. now rewrite Hu, Hp.
Qed.

(** When [admin.html] is not under [public/] the route is reached, and it
    has no file to send to anyone. *)
Lemma admin_page_missing (body : value) (w : World) :
  publicFiles cfg "/admin.html" = false ->
  securedApp cfg geo salt (mkRequest GET "/admin.html" body) admin w
  = mkOutcome (Sent (mkResponse 404 (Text "Not Found"))) admin w [].
Proof.
  intros Hf. unfold securedApp, serveStatic, route, isAuthenticated, adminPage.
  simpl. now rewrite Hf.
Qed.

(** [server.js] itself has no gate: the POST routes run the handlers for
    any request. *)
Lemma plain_routes_have_no_gate (body : value) (sess : Session) (w : World) :
  plainApp cfg geo salt (mkRequest POST "/api/addresses" body) sess w
  = postAddresses Plain geo body sess w
  /\ plainApp cfg geo salt (mkRequest POST "/api/rules" body) sess w
     = postRules Plain body sess w
  /\ plainApp cfg geo salt (mkRequest POST "/api/change-password" body) sess w
     = postChangePassword salt body sess w.
Proof. repeat split. Qed.

End Gate.

(** C1 at requests without a session.  In the copy with the session
    middleware the POST routes for the rules, the addresses and the
    password answer 401 and change nothing, as the claim says.  GET
    /admin.html does not reach its gate: the static-file middleware is
    registered before the gated route and [admin.html] lies under
    [public/], so the page is sent.  In [server.js] without the session
    middleware POST /api/addresses runs the handler for anyone. *)
Theorem session_gate_covers_api_not_admin_page :
  forall (R : Runtime) (cfg : Config) (geo : Geocoder) (salt : nat)
         (body : value) (sess : Session) (w : World),
    user sess = false ->
    (forall p, p = "/api/rules" \/ p = "/api/addresses"
               \/ p = "/api/change-password" ->
               securedApp cfg geo salt (mkRequest POST p body) sess w
               = mkOutcome unauthorized sess w [])
    /\ (publicFiles cfg "/admin.html" = true ->
        securedApp cfg geo salt (mkRequest GET "/admin.html" body) sess w
        = mkOutcome (Sent (mkResponse 200 (SendFile "public/admin.html")))
                    sess w [])
    /\ plainApp cfg geo salt (mkRequest POST "/api/addresses" body) sess w
       = postAddresses Plain geo body sess w.
Proof.
  intros R cfg geo salt body sess w Hu. split; [|split].
  - intros p Hp.
    now apply secured_mutations_need_session.
  - intros Hf. unfold securedApp, serveStatic. simpl. now rewrite Hf.
  - reflexivity.
Qed.

Lemma session_gate_covers_api_not_admin_page_witness :
  user visitor = false
  /\ publicFiles exampleConfig "/admin.html" = true
  /\ securedApp exampleConfig neverFinds 0
       (mkRequest POST "/api/addresses" (VObj [("addresses", VArr [])]))
       visitor exampleWorld
     = mkOutcome unauthorized visitor exampleWorld []
  /\ securedApp exampleConfig neverFinds 0
       (mkRequest GET "/admin.html" (VObj [("addresses", VArr [])]))
       visitor exampleWorld
     = mkOutcome (Sent (mkResponse 200 (SendFile "public/admin.html")))
                 visitor exampleWorld []
  /\ plainApp exampleConfig neverFinds 0
       (mkRequest POST "/api/addresses" (VObj [("addresses", VArr [])]))
       visitor exampleWorld
     = mkOutcome saved visitor
         (written exampleWorld (setAddresses exampleDoc []))
         [Write (setAddresses exampleDoc [])].
Proof.
  split; [reflexivity|]. split; [reflexivity|].
  destruct (session_gate_covers_api_not_admin_page markerRuntime exampleConfig
              neverFinds 0 (VObj [("addresses", VArr [])]) visitor exampleWorld
              eq_refl) as [Hapi [Hpage Hplain]].
  split; [apply Hapi; right; left; reflexivity|].
  split; [apply Hpage; reflexivity|].
  rewrite Hplain. reflexivity.
Defined.

(** ** Sign-in *)

(** [process.env.ADMIN_USERNAME === username], spelled out. *)
Lemma usernameCorrect_true (adminUsername : option string)
      (username : value) :
  usernameCorrect adminUsername username = true
  <-> match adminUsername with
      | Some a => username = VStr a
      | None => username = VUndefined
      end.
Proof.
  destruct adminUsername as [a|]; simpl.
  - destruct username; simpl; split; try discriminate.
    + intros E. apply String.eqb_eq in E. now subst.
    + intros E. inversion E. apply String.eqb_refl.
  - destruct username; split; try discriminate; reflexivity.
Qed.

Lemma markerRuntime_rejects : rejectsNonStrings markerRuntime.
Proof.
  intros data h Hnot. destruct data; try reflexivity.
  exfalso. exact (Hnot s eq_refl).
Qed.

(** C10: the sign-in handler of either copy.  The request is answered with
    the redirect to the admin page exactly when the username is the
    configured one and the comparison of the password with the stored hash
    resolves to true; in the copy with sessions [req.session.user] is then
    set, and in no other case does the session change.  The document is
    never touched, and the comparison runs exactly when the username is the
    configured one.  A wrong username is answered with 401, and so is a
    password for which the comparison resolves to false, as it does for
    every string that does not verify.  A failed sign-in is not always
    answered with 401: with the configured username and a password that is
    not a string (none at all, for one) [bcrypt.compare] rejects, nothing
    catches the rejection and the handler ends without a reply. *)
Theorem signin_sets_flag_iff_credentials_verify :
  forall (R : Runtime) (v : Variant) (adminUsername : option string)
         (body : value) (sess : Session) (w : World),
    isNullish body = false ->
    let username := field body "username" in
    let password := field body "password" in
    let h := adminPassword (data w) in
    let nameMatches := match adminUsername with
                       | Some a => username = VStr a
                       | None => username = VUndefined
                       end in
    let out := postSignin v adminUsername body sess w in
    (reply out = toAdminPage
     <-> nameMatches /\ bcrypt_compare password h = Some true)
    /\ (user (session out) = true
        <-> user sess = true
            \/ (v = Secured /\ nameMatches
                /\ bcrypt_compare password h = Some true))
    /\ (reply out <> toAdminPage -> session out = sess)
    /\ world out = w
    /\ (~ nameMatches -> reply out = authFailed /\ events out = [])
    /\ (nameMatches -> events out = [Compare password h])
    /\ (nameMatches -> bcrypt_compare password h = Some false ->
        reply out = authFailed)
    /\ (forall p, password = VStr p ->
                  reply out = toAdminPage \/ reply out = authFailed)
    /\ (nameMatches -> rejectsNonStrings R -> (forall p, password <> VStr p) ->
        reply out = Thrown /\ session out = sess).
Proof.
  intros R v adminUsername body sess w Hbody username password h nameMatches
         out.
  assert (Hu : prop body "username" = Some username).
  { unfold username, field. nullish_cases body Hbody; reflexivity. }
  assert (Hp : prop body "password" = Some password).
  { unfold password, field. nullish_cases body Hbody; reflexivity. }
  pose proof (usernameCorrect_true adminUsername username) as Hname.
  fold nameMatches in Hname.
  unfold out, postSignin. rewrite Hu, Hp. fold h.
  assert (Hstr : rejectsNonStrings R -> (forall p, password <> VStr p) ->
                 bcrypt_compare password h = None)
    by (intros Hrej Hnot; now apply Hrej).
  assert (Hdiff : authFailed <> toAdminPage) by discriminate.
  destruct (usernameCorrect adminUsername username).
  - assert (N : nameMatches) by now apply Hname.
    destruct (bcrypt_compare password h) as [[|]|] eqn:E; cbn.
    + split; [split; [now split | reflexivity]|]. split.
      { destruct v; simpl.
        - split; [now left | intros [X|[X _]]; [exact X | discriminate X]].
        - split; [right; now repeat split | reflexivity]. }
      split; [intros X; exfalso; now apply X|]. split; [reflexivity|].
      split; [intros X; contradiction|]. split; [reflexivity|].
      split; [discriminate|]. split; [now left|].
      intros _ Hrej Hnot. discriminate (Hstr Hrej Hnot).
    + split; [split; [discriminate | intros [_ X]; discriminate X]|].
      split.
      { split; [now left | intros [X|[_ [_ X]]]; [exact X | discriminate X]]. }
      split; [reflexivity|]. split; [reflexivity|].
      split; [intros X; contradiction|]. split; [reflexivity|].
      split; [reflexivity|]. split; [now right|].
      intros _ Hrej Hnot. discriminate (Hstr Hrej Hnot).
    + split; [split; [discriminate | intros [_ X]; discriminate X]|].
      split.
      { split; [now left | intros [X|[_ [_ X]]]; [exact X | discriminate X]]. }
      split; [reflexivity|]. split; [reflexivity|].
      split; [intros X; contradiction|]. split; [reflexivity|].
      split; [discriminate|]. split; [|now split].
      intros p Hpw. exfalso. rewrite Hpw in E.
      exact (compare_resolves p _ E).
  - assert (N : ~ nameMatches).
    { intros X. apply Hname in X. discriminate X. }
    cbn.
    split; [split; [discriminate | intros [X _]; contradiction]|].
    split;
      [split; [now left | intros [X|[_ [X _]]]; [exact X | contradiction]]|].
    split; [reflexivity|]. split; [reflexivity|].
    split; [now split|]. split; [intros X; contradiction|].
    split; [reflexivity|]. split; [now right | intros X; contradiction].
Qed.

Lemma authFailed_is_401 : exists page, authFailed = Sent (mkResponse 401 (Html page)).
Proof. eexists. reflexivity. Qed.

(** C10 at a sign-in form with the configured username and no password:
    the sign-in fails and no 401 is sent. *)
Lemma signin_sets_flag_iff_credentials_verify_witness :
  isNullish (VObj [("username", VStr "admin")]) = false
  /\ field (VObj [("username", VStr "admin")]) "username" = VStr "admin"
  /\ rejectsNonStrings markerRuntime
  /\ (forall p, field (VObj [("username", VStr "admin")]) "password" <> VStr p)
  /\ reply (postSignin Secured (Some "admin") (VObj [("username", VStr "admin")])
                       visitor stubbornWorld)
     = Thrown
  /\ session (postSignin Secured (Some "admin")
                         (VObj [("username", VStr "admin")])
                         visitor stubbornWorld)
     = visitor.
Proof.
  split; [reflexivity|]. split; [reflexivity|].
  split; [exact markerRuntime_rejects|].
  assert (Hnot : forall p,
             field (VObj [("username", VStr "admin")]) "password" <> VStr p)
    by (intros p; discriminate).
  split; [exact Hnot|].
  destruct (signin_sets_flag_iff_credentials_verify markerRuntime Secured
              (Some "admin") (VObj [("username", VStr "admin")])
              visitor stubbornWorld eq_refl)
    as [_ [_ [_ [_ [_ [_ [_ [_ Hthrown]]]]]]]].
  exact (Hthrown eq_refl markerRuntime_rejects Hnot).
Defined.

(** The sign-in of the scenario: the configured username and the password
    behind the stored hash. *)
Example good_signin :
  reply goodSignin = toAdminPage
  /\ session goodSignin = mkSession true
  /\ world goodSignin = stubbornWorld
  /\ events goodSignin = [Compare (VStr "password123") "$2b$10$password123"].
Proof. repeat split. Qed.

(** The limiter in front of the handler: up to ten requests of a window
    reach the handler, the eleventh is answered with 429 and the handler is
    not run. *)
Lemma signin_route (R : Runtime) (cfg : Config) (geo : Geocoder) (salt : nat)
      (body : value) (sess : Session) (w : World) :
  securedApp cfg geo salt (mkRequest POST "/signin" body) sess w
  = if Nat.ltb (hits w) 10
    then postSignin Secured (ADMIN_USERNAME cfg) body sess
                    (mkWorld (data w) (file w) (S (hits w)))
    else mkOutcome
           (Sent (mkResponse 429
                    (Text "Too many login or password change attempts from this IP, please try again after 15 minutes")))
           sess (mkWorld (data w) (file w) (S (hits w))) [].
Proof.
  unfold securedApp, serveStatic, route, authLimiter, respond. simpl.
  now destruct (Nat.ltb (hits w) 10).
Qed.

(** ** Changing the password *)

Lemma truthy_nonempty (s : string) : s <> EmptyString -> truthy (VStr s) = true.
Proof. destruct s; [congruence | reflexivity]. Qed.

Lemma nonempty_of_length (s : string) : 8 <= String.length s -> s <> EmptyString.
Proof. destruct s; simpl; [lia | discriminate]. Qed.

(** C7, amended: a new password of fewer than 8 characters is answered
    with 400, a current password that does not verify with 401, and in both
    cases nothing changes.  When the current password verifies and the new
    one has 8 characters or more, the hash of the new password replaces the
    stored hash in memory and in the file, and afterwards a password
    verifies exactly when it is the new password: the old password no
    longer verifies unless it was chosen again as the new one. *)
Theorem changePassword_checks_then_replaces_hash :
  forall (R : Runtime) (salt : nat) (body : value) (current new : string)
         (sess : Session) (w : World),
    prop body "currentPassword" = Some (VStr current) ->
    prop body "newPassword" = Some (VStr new) ->
    let out := postChangePassword salt body sess w in
    (String.length new < 8 ->
       (exists message, reply out = json 400 false message) /\ world out = w)
    /\ (8 <= String.length new -> current <> EmptyString ->
        bcrypt_compare (VStr current) (adminPassword (data w)) = Some false ->
        reply out = json 401 false "Incorrect current password." /\ world out = w)
    /\ (8 <= String.length new -> current <> EmptyString ->
        bcrypt_compare (VStr current) (adminPassword (data w)) = Some true ->
        exists h,
          bcrypt_hash (VStr new) salt = Some h /\
          reply out = json 200 true "Password updated successfully." /\
          world out = written w (setAdminPassword (data w) h) /\
          filter isWrite (events out) = [Write (setAdminPassword (data w) h)] /\
          forall p, bcrypt_compare (VStr p) (adminPassword (file (world out)))
                    = Some (String.eqb p new)).
Proof.
  intros R salt body current new sess w Hc Hn out.
  unfold out, postChangePassword. rewrite Hc, Hn.
  unfold shorterThan8. split; [|split].
  - intros Hlen. apply Nat.ltb_lt in Hlen. rewrite Hlen.
    destruct (negb (truthy (VStr current)) || negb (truthy (VStr new)));
      simpl; (split; [eexists; reflexivity | reflexivity]).
  - intros Hlen Hcur Hcmp.
    rewrite (truthy_nonempty current Hcur).
    rewrite (truthy_nonempty new (nonempty_of_length new Hlen)).
    apply Nat.ltb_ge in Hlen. rewrite Hlen, Hcmp. now split.
  - intros Hlen Hcur Hcmp.
    rewrite (truthy_nonempty current Hcur).
    rewrite (truthy_nonempty new (nonempty_of_length new Hlen)).
    apply Nat.ltb_ge in Hlen. rewrite Hlen, Hcmp. simpl.
    destruct (bcrypt_hash (VStr new) salt) as [h|] eqn:Eh.
    + exists h. repeat split. simpl. intros p.
      exact (compare_hash p new salt h Eh).
    + exfalso. exact (hash_resolves new salt Eh).
Qed.

Lemma changePassword_checks_then_replaces_hash_witness :
  8 <= String.length "pumpkin-patch"
  /\ bcrypt_compare (VStr "password123") (adminPassword (data stubbornWorld))
     = Some true
  /\ exists h,
       reply passwordChanged = json 200 true "Password updated successfully."
       /\ adminPassword (file (world passwordChanged)) = h
       /\ bcrypt_compare (VStr "pumpkin-patch") h = Some true
       /\ bcrypt_compare (VStr "password123") h = Some false.
Proof.
  split; [simpl; lia|]. split; [reflexivity|].
  destruct (changePassword_checks_then_replaces_hash markerRuntime 7
              (passwordForm "password123" "pumpkin-patch")
              "password123" "pumpkin-patch" admin stubbornWorld
              eq_refl eq_refl)
    as [_ [_ Hok]].
  assert (Hlen : 8 <= String.length "pumpkin-patch") by (simpl; lia).
  assert (Hcur : "password123" <> EmptyString) by discriminate.
  destruct (Hok Hlen Hcur eq_refl) as [h [_ [Hreply [_ [_ Hverify]]]]].
  exists (adminPassword (file (world passwordChanged))).
  split; [exact Hreply|]. split; [reflexivity|].
  split; [exact (Hverify "pumpkin-patch") | exact (Hverify "password123")].
Defined.

(** C7 as stated fails: the admin may give the current password as the new
    one; the change succeeds and the old password verifies as before. *)
Lemma unchanged_password_still_verifies :
  reply (postChangePassword 7 (passwordForm "password123" "password123")
                            admin stubbornWorld)
  = json 200 true "Password updated successfully."
  /\ bcrypt_compare (VStr "password123")
       (adminPassword
          (file (world (postChangePassword 7
                          (passwordForm "password123" "password123")
                          admin stubbornWorld))))
     = Some true.
Proof. split; reflexivity. Qed.

(** The same in every runtime that meets the contract. *)
Lemma repeated_password_verifies (R : Runtime) (salt : nat) (p : string)
      (sess : Session) (w : World) :
  reply (postChangePassword salt (passwordForm p p) sess w)
  = json 200 true "Password updated successfully." ->
  bcrypt_compare (VStr p)
    (adminPassword (file (world (postChangePassword salt (passwordForm p p)
                                                    sess w))))
  = Some true.
Proof.
  unfold postChangePassword. simpl. rewrite orb_diag.
  destruct (negb (negb (String.eqb p EmptyString))); [discriminate|].
  destruct (Nat.ltb (String.length p) 8); [discriminate|].
  destruct (bcrypt_compare (VStr p) (adminPassword (data w))) as [[|]|];
    try discriminate.
  destruct (bcrypt_hash (VStr p) salt) as [h|] eqn:Eh; [|discriminate].
  intros _. simpl. rewrite (compare_hash p p salt h Eh).
  now rewrite String.eqb_refl.
Qed.

(** ** The admin client: Edit *)

Import Admin.

Lemma length_toLowerCase (s : string) :
  String.length (toLowerCase s) = String.length s.
Proof. induction s as [|c s IH]; simpl; [reflexivity | now rewrite IH]. Qed.

Lemma length_substring_le (m : nat) :
  forall s, String.length (String.substring 0 m s) <= m.
Proof.
  induction m as [|m IH]; intros s; destruct s as [|c s]; simpl; try lia.
  specialize (IH s). lia.
Qed.

Lemma length_trimStart_le (s : string) :
  String.length (trimStart s) <= String.length s.
Proof.
  induction s as [|c s IH]; simpl; [lia|].
  destruct (isSpace c); simpl; lia.
Qed.

Lemma length_trimEnd_le (s : string) :
  String.length (trimEnd s) <= String.length s.
Proof.
  induction s as [|c s IH]; simpl; [lia|].
  destruct (trimEnd s) as [|d t]; simpl in *.
  - destruct (isSpace c); simpl; lia.
  - lia.
Qed.

Lemma length_trim_le (s : string) : String.length (trim s) <= String.length s.
Proof.
  unfold trim. pose proof (length_trimEnd_le (trimStart s)).
  pose proof (length_trimStart_le s). lia.
Qed.

Lemma endsWith_length (s suffix : string) :
  endsWith s suffix = true -> String.length suffix <= String.length s.
Proof.
  unfold endsWith. intros H. apply andb_true_iff in H as [H _].
  now apply Nat.leb_le in H.
Qed.

(** The loop of [handleEdit] ends: with the length of the text as fuel it
    returns a street part, and that no longer ends with the suffix. *)
Lemma stripLoop_terminates (fuel : nat) :
  forall s, String.length s <= fuel ->
            exists t, stripLoop fuel s = Some t
                      /\ endsWith (toLowerCase t) locationSuffix = false.
Proof.
  induction fuel as [|fuel IH]; intros s Hlen; simpl.
  - destruct (endsWith (toLowerCase s) locationSuffix) eqn:E.
    + apply endsWith_length in E. rewrite length_toLowerCase in E.
      simpl in E. lia.
    + now exists s.
  - destruct (endsWith (toLowerCase s) locationSuffix) eqn:E.
    + apply IH. apply endsWith_length in E. rewrite length_toLowerCase in E.
      pose proof (length_trim_le
                    (String.substring 0
                       (String.length s - String.length locationSuffix) s)).
      pose proof (length_substring_le
                    (String.length s - String.length locationSuffix) s).
      simpl in *. lia.
    + now exists s.
Qed.

(** X14: Edit always ends, and what it shows does not end with the
    suffix.  For an entry whose [text] is a string, the loop of
    [handleEdit] stops within as many rounds as the text has characters,
    and the street part put in the edit box does not end with
    [locationSuffix], in any letter case. *)
Lemma handleEdit_shows_street_part (index : nat) (currentAddresses : list value)
      (entry : value) (fullAddress : string) :
  nth_error currentAddresses index = Some entry ->
  prop entry "text" = Some (VStr fullAddress) ->
  exists streetPart,
    handleEdit index currentAddresses = Some streetPart
    /\ endsWith (toLowerCase streetPart) locationSuffix = false.
Proof.
  intros Hi Ht. unfold handleEdit. rewrite Hi, Ht.
  now apply stripLoop_terminates.
Qed.

(** What saving an edit does to the coordinates of an address object: they
    stay when the new text is the old text, and [lat] and [lon] are gone
    when it is not. *)
Lemma editedEntry_same_text (o : obj) (old : value)
      (inputValue instructionsValue : string) :
  strictEqStr (trim inputValue ++ " " ++ locationSuffix)%string old = true ->
  field (editedEntry (VObj o) old inputValue instructionsValue) "lat"
  = lookup "lat" o
  /\ field (editedEntry (VObj o) old inputValue instructionsValue) "lon"
     = lookup "lon" o.
Proof.
  intros E. unfold editedEntry. rewrite E. unfold field. simpl.
  split; rewrite !lookup_assign_other; (reflexivity || discriminate).
Qed.

Lemma editedEntry_changed_text (entry old : value)
      (inputValue instructionsValue : string) :
  strictEqStr (trim inputValue ++ " " ++ locationSuffix)%string old = false ->
  hasProp (editedEntry entry old inputValue instructionsValue) "lat" = false
  /\ hasProp (editedEntry entry old inputValue instructionsValue) "lon" = false.
Proof.
  intros E. unfold editedEntry. rewrite E. simpl.
  destruct entry; simpl; try (split; reflexivity).
  rewrite !hasOwn_assign, !hasOwn_remove. simpl. split; reflexivity.
Qed.

(** Strings as lists of characters. *)
Lemma chars_append (a b : string) :
  list_ascii_of_string (a ++ b)%string
  = list_ascii_of_string a ++ list_ascii_of_string b.
Proof. induction a as [|c a IH]; simpl; [reflexivity | now rewrite IH]. Qed.

Lemma chars_inj (a b : string) :
  list_ascii_of_string a = list_ascii_of_string b -> a = b.
Proof.
  intros H. rewrite <- (string_of_list_ascii_of_string a).
  rewrite <- (string_of_list_ascii_of_string b). now rewrite H.
Qed.

Lemma append_inv_tail (a b u : string) :
  (a ++ u)%string = (b ++ u)%string -> a = b.
Proof.
  intros H. apply chars_inj. apply (f_equal list_ascii_of_string) in H.
  rewrite !chars_append in H. exact (app_inv_tail _ _ _ H).
Qed.

Lemma append_assoc (a b c : string) :
  (a ++ (b ++ c))%string = ((a ++ b) ++ c)%string.
Proof. induction a as [|x a IH]; simpl; [reflexivity | now rewrite IH]. Qed.

(** A trimmed string does not end with white space. *)
Lemma trimEnd_last (s : string) :
  forall a c, trimEnd s = (a ++ String c EmptyString)%string ->
              isSpace c = false.
Proof.
  induction s as [|x s IH]; intros a c H; simpl in H.
  - destruct a; discriminate H.
  - destruct (trimEnd s) as [|y t].
    + destruct (isSpace x) eqn:Ex.
      * destruct a; discriminate H.
      * destruct a as [|z a]; simpl in H.
        -- inversion H; subst. exact Ex.
        -- inversion H as [[Hz Ha]]. destruct a; discriminate Ha.
    + destruct a as [|z a]; simpl in H.
      * discriminate H.
      * inversion H as [[Hz Ha]]. exact (IH a c Ha).
Qed.

(** The text Edit writes is never a text Add wrote: Edit joins the street
    part and the suffix with two spaces, Add with one. *)
Lemma edit_text_differs_from_added_text (newAddress inputValue : string) :
  (trim inputValue ++ " " ++ locationSuffix)%string
  <> (trim newAddress ++ " " ++ addSuffix)%string.
Proof.
  intros H.
  change (" " ++ addSuffix)%string with locationSuffix in H.
  rewrite append_assoc in H. apply append_inv_tail in H.
  unfold trim at 2 in H. symmetry in H.
  pose proof (trimEnd_last _ _ _ H) as Hspace. discriminate Hspace.
Qed.

(** X23: so saving an edit of an address that Add created removes its
    coordinates, whatever the edit box holds. *)
Lemma edit_of_added_address_clears_coordinates
      (entry : value) (newAddress inputValue instructionsValue : string) :
  hasProp (editedEntry entry
             (VStr (trim newAddress ++ " " ++ addSuffix)%string)
             inputValue instructionsValue) "lat" = false
  /\ hasProp (editedEntry entry
                (VStr (trim newAddress ++ " " ++ addSuffix)%string)
                inputValue instructionsValue) "lon" = false.
Proof.
  apply editedEntry_changed_text. simpl. apply String.eqb_neq.
  apply edit_text_differs_from_added_text.
Qed.

(** C5 at an address that Add created.  The admin adds "12 Main St"; the
    save stores it with the coordinates the service found; the list is
    fetched again; Edit shows "12 Main St" in the edit box; the admin saves
    without changing it.  The text Edit writes has two spaces before the
    suffix, so it differs from the old text and [lat] and [lon] are
    removed. *)
Theorem resaving_added_address_clears_coordinates :
  addAddress "12 Main St" EmptyString []
  = [VObj [("text", VStr mainSt); ("instructions", VUndefined)]]
  /\ world (postAddresses Secured alwaysFinds
              (saveAddresses (addAddress "12 Main St" EmptyString []))
              admin exampleWorld)
     = written exampleWorld (setAddresses exampleDoc [movedSouth])
  /\ wire (VArr [movedSouth]) = VArr [movedSouth]
  /\ handleEdit 0 [movedSouth] = Some "12 Main St"
  /\ saveEdit 0 "12 Main St" EmptyString [movedSouth]
     = Some [VObj [("text", VStr "12 Main St  ardlethan nsw 2665");
                   ("instructions", VUndefined)]].
Proof. repeat split. Qed.

(** * More of the code *)

(** ** What a request may change *)

Lemma Change_refl (w : World) : Change w w.
Proof. destruct w as [d f n]. exact (Unchanged (mkWorld d f n) n). Qed.

Lemma Change_bump (w w' : World) (n : nat) :
  Change (mkWorld (data w) (file w) n) w' -> Change w w'.
Proof. intros H. inversion H; subst; simpl; constructor. Qed.

Lemma postRules_change (v : Variant) (body : value) (sess : Session)
      (w : World) :
  Change w (world (postRules v body sess w)).
Proof.
  unfold postRules.
  destruct (prop body "rules") as [[| | | |r| |]|]; simpl;
    try apply Change_refl.
  apply RulesSet.
Qed.

Lemma postAddresses_change (v : Variant) (geo : Geocoder) (body : value)
      (sess : Session) (w : World) :
  Change w (world (postAddresses v geo body sess w)).
Proof.
  destruct (postAddresses_world v geo body sess w) as [E|[l E]]; rewrite E.
  - apply Change_refl.
  - apply AddressesSet.
Qed.

Lemma postSignin_world (R : Runtime) (v : Variant) (a : option string)
      (body : value) (sess : Session) (w : World) :
  world (postSignin v a body sess w) = w.
Proof.
  unfold postSignin.
  destruct (prop body "username"), (prop body "password"); try reflexivity.
  destruct (usernameCorrect a v0); try reflexivity.
  destruct (bcrypt_compare v1 (adminPassword (data w))) as [[|]|]; reflexivity.
Qed.

Lemma postChangePassword_change (R : Runtime) (salt : nat) (body : value)
      (sess : Session) (w : World) :
  Change w (world (postChangePassword salt body sess w)).
Proof.
  unfold postChangePassword.
  destruct (prop body "currentPassword") as [c|],
           (prop body "newPassword") as [n|]; simpl; try apply Change_refl.
  destruct (negb (truthy c) || negb (truthy n)); simpl; [apply Change_refl|].
  destruct (shorterThan8 n); simpl; [apply Change_refl|].
  destruct (bcrypt_compare c (adminPassword (data w))) as [[|]|]; simpl;
    try apply Change_refl.
  destruct (bcrypt_hash n salt); simpl; [apply PasswordSet | apply Change_refl].
Qed.

Lemma isAuthenticated_change (req : Request) (next : Handler) :
  (forall sess w, Change w (world (next sess w))) ->
  forall sess w, Change w (world (isAuthenticated req next sess w)).
Proof.
  intros H sess w. unfold isAuthenticated.
  destruct (user sess); [apply H|].
  destruct (String.prefix "/api/" (path req)); apply Change_refl.
Qed.

Lemma authLimiter_change (next : Handler) :
  (forall sess w, Change w (world (next sess w))) ->
  forall sess w, Change w (world (authLimiter next sess w)).
Proof.
  intros H sess w. unfold authLimiter.
  destruct (Nat.ltb (hits w) 10).
  - apply (Change_bump w _ (S (hits w))). apply H.
  - simpl. apply Unchanged.
Qed.

Lemma respond_change (r : Response) (sess : Session) (w : World) :
  Change w (world (respond r sess w)).
Proof. apply Change_refl. Qed.

Lemma securedApp_change (R : Runtime) (cfg : Config) (geo : Geocoder)
      (salt : nat) (req : Request) (sess : Session) (w : World) :
  Change w (world (securedApp cfg geo salt req sess w)).
Proof.
  unfold securedApp.
  destruct (serveStatic cfg req); [apply respond_change|].
  destruct (route GET "/api/addresses" req); [apply Change_refl|].
  destruct (route GET "/api/rules" req); [apply Change_refl|].
  destruct (route POST "/api/rules" req).
  { apply isAuthenticated_change. intros; apply postRules_change. }
  destruct (route POST "/api/addresses" req).
  { apply isAuthenticated_change. intros; apply postAddresses_change. }
  destruct (route GET "/admin.html" req).
  { apply isAuthenticated_change. intros. unfold adminPage.
    destruct (publicFiles cfg "/admin.html"); apply respond_change. }
  destruct (route POST "/signin" req).
  { apply authLimiter_change. intros. rewrite postSignin_world.
    apply Change_refl. }
  destruct (route POST "/api/signout" req); [apply Change_refl|].
  destruct (route POST "/api/change-password" req).
  { apply isAuthenticated_change. apply authLimiter_change.
    intros; apply postChangePassword_change. }
  apply respond_change.
Qed.

Lemma plainApp_change (R : Runtime) (cfg : Config) (geo : Geocoder)
      (salt : nat) (req : Request) (sess : Session) (w : World) :
  Change w (world (plainApp cfg geo salt req sess w)).
Proof.
  unfold plainApp.
  destruct (route GET "/api/addresses" req); [apply Change_refl|].
  destruct (route GET "/api/rules" req); [apply Change_refl|].
  destruct (route POST "/api/rules" req); [apply postRules_change|].
  destruct (route POST "/api/addresses" req); [apply postAddresses_change|].
  destruct (serveStatic cfg req); [apply respond_change|].
  destruct (route POST "/signin" req).
  { rewrite postSignin_world. apply Change_refl. }
  destruct (route POST "/api/change-password" req);
    [apply postChangePassword_change | apply respond_change].
Qed.

(** ** Every change of the document is written *)

Lemma Settled_quiet (w : World) (r : Reply) (sess : Session) (n : nat)
      (evs : list Event) :
  writes evs = [] ->
  Settled w (mkOutcome r sess (mkWorld (data w) (file w) n) evs).
Proof. intros H. left. now repeat split. Qed.

Lemma Settled_same (w : World) (r : Reply) (sess : Session)
      (evs : list Event) :
  writes evs = [] -> Settled w (mkOutcome r sess w evs).
Proof. intros H. left. now repeat split. Qed.

(** The counter of the limiter is no part of the document. *)
Lemma Settled_bump (w : World) (n : nat) (out : Outcome) :
  Settled (mkWorld (data w) (file w) n) out -> Settled w out.
Proof. intros H. exact H. Qed.

Lemma postRules_settled (v : Variant) (body : value) (sess : Session)
      (w : World) :
  Settled w (postRules v body sess w).
Proof.
  unfold postRules.
  destruct (prop body "rules") as [[| | | |r| |]|];
    try (now apply Settled_same).
  right. now split.
Qed.

Lemma writes_app (evs evs' : list Event) :
  writes (evs ++ evs') = writes evs ++ writes evs'.
Proof. apply flat_map_app. Qed.

Lemma postAddresses_settled (v : Variant) (geo : Geocoder) (body : value)
      (sess : Session) (w : World) :
  Settled w (postAddresses v geo body sess w).
Proof.
  unfold postAddresses.
  destruct (prop body "addresses") as [[| | | | |l|]|];
    try (now apply Settled_same).
  pose proof (writes_none _ (geocodeAll_no_write geo l 0)) as Hw.
  destruct (geocodeAll geo 0 l) as [[l'|] evs]; simpl in Hw.
  - right. simpl. rewrite writes_app, Hw. now split.
  - now apply Settled_same.
Qed.

Lemma postSignin_settled (R : Runtime) (v : Variant) (a : option string)
      (body : value) (sess : Session) (w : World) :
  Settled w (postSignin v a body sess w).
Proof.
  unfold postSignin.
  destruct (prop body "username") as [u|], (prop body "password") as [p|];
    try (now apply Settled_same).
  destruct (usernameCorrect a u); [|now apply Settled_same].
  destruct (bcrypt_compare p (adminPassword (data w))) as [[|]|];
    now apply Settled_same.
Qed.

Lemma postChangePassword_settled (R : Runtime) (salt : nat) (body : value)
      (sess : Session) (w : World) :
  Settled w (postChangePassword salt body sess w).
Proof.
  unfold postChangePassword.
  destruct (prop body "currentPassword") as [c|],
           (prop body "newPassword") as [n|];
    try (now apply Settled_same).
  destruct (negb (truthy c) || negb (truthy n)); [now apply Settled_same|].
  destruct (shorterThan8 n); [now apply Settled_same|].
  destruct (bcrypt_compare c (adminPassword (data w))) as [[|]|];
    try (now apply Settled_same).
  destruct (bcrypt_hash n salt); [|now apply Settled_same].
  right. now split.
Qed.

Lemma isAuthenticated_settled (req : Request) (next : Handler)
      (sess : Session) (w : World) :
  (forall s, Settled w (next s w)) ->
  Settled w (isAuthenticated req next sess w).
Proof.
  intros H. unfold isAuthenticated. destruct (user sess); [apply H|].
  destruct (String.prefix "/api/" (path req)); now apply Settled_same.
Qed.

Lemma authLimiter_settled (next : Handler) (sess : Session) (w : World) :
  (forall s w', data w' = data w -> file w' = file w ->
                Settled w' (next s w')) ->
  Settled w (authLimiter next sess w).
Proof.
  intros H. unfold authLimiter.
  destruct (Nat.ltb (hits w) 10).
  - apply (Settled_bump w (S (hits w))). now apply H.
  - now apply Settled_quiet.
Qed.

Lemma respond_settled (r : Response) (sess : Session) (w : World) :
  Settled w (respond r sess w).
Proof. now apply Settled_same. Qed.

Lemma securedApp_settled (R : Runtime) (cfg : Config) (geo : Geocoder)
      (salt : nat) (req : Request) (sess : Session) (w : World) :
  Settled w (securedApp cfg geo salt req sess w).
Proof.
  unfold securedApp.
  destruct (serveStatic cfg req); [apply respond_settled|].
  destruct (route GET "/api/addresses" req); [now apply Settled_same|].
  destruct (route GET "/api/rules" req); [now apply Settled_same|].
  destruct (route POST "/api/rules" req).
  { apply isAuthenticated_settled. intros; apply postRules_settled. }
  destruct (route POST "/api/addresses" req).
  { apply isAuthenticated_settled. intros; apply postAddresses_settled. }
  destruct (route GET "/admin.html" req).
  { apply isAuthenticated_settled. intros. unfold adminPage.
    destruct (publicFiles cfg "/admin.html"); apply respond_settled. }
  destruct (route POST "/signin" req).
  { apply authLimiter_settled. intros; apply postSignin_settled. }
  destruct (route POST "/api/signout" req); [now apply Settled_same|].
  destruct (route POST "/api/change-password" req).
  { apply isAuthenticated_settled. intros. apply authLimiter_settled.
    intros; apply postChangePassword_settled. }
  apply respond_settled.
Qed.

Lemma plainApp_settled (R : Runtime) (cfg : Config) (geo : Geocoder)
      (salt : nat) (req : Request) (sess : Session) (w : World) :
  Settled w (plainApp cfg geo salt req sess w).
Proof.
  unfold plainApp.
  destruct (route GET "/api/addresses" req); [now apply Settled_same|].
  destruct (route GET "/api/rules" req); [now apply Settled_same|].
  destruct (route POST "/api/rules" req); [apply postRules_settled|].
  destruct (route POST "/api/addresses" req); [apply postAddresses_settled|].
  destruct (serveStatic cfg req); [apply respond_settled|].
  destruct (route POST "/signin" req); [apply postSignin_settled|].
  destruct (route POST "/api/change-password" req);
    [apply postChangePassword_settled | apply respond_settled].
Qed.

(** X1: every change of the document is written.  In either copy of the
    server, whatever the request, the session and the collaborators do:
    a request replaces at most one field of [db.data]; either it calls
    [db.write()] not at all and [db.data] is afterwards what it was, or it
    calls it once, with the [db.data] it leaves behind.  No handler changes
    [db.data] and ends, with a reply or with an error, before the write. *)
Theorem every_change_of_the_document_is_written :
  forall (R : Runtime) (v : Variant) (cfg : Config) (geo : Geocoder)
         (salt : nat) (req : Request) (sess : Session) (w : World),
    Change w (world (serverApp v cfg geo salt req sess w))
    /\ ((writes (events (serverApp v cfg geo salt req sess w)) = []
         /\ data (world (serverApp v cfg geo salt req sess w)) = data w
         /\ file (world (serverApp v cfg geo salt req sess w)) = file w)
        \/ (writes (events (serverApp v cfg geo salt req sess w))
            = [data (world (serverApp v cfg geo salt req sess w))]
            /\ file (world (serverApp v cfg geo salt req sess w))
               = data (world (serverApp v cfg geo salt req sess w)))).
Proof.
  intros R v cfg geo salt req sess w. split.
  - destruct v; [apply plainApp_change | apply securedApp_change].
  - destruct v; [apply plainApp_settled | apply securedApp_settled].
Qed.

(** A save of two addresses writes once, and what it writes is the list it
    leaves in memory. *)
Lemma every_change_of_the_document_is_written_witness :
  writes (events (serverApp Secured exampleConfig alwaysFinds 7
                    (mkRequest POST "/api/addresses"
                       (VObj [("addresses", VArr twoAddresses)]))
                    admin exampleWorld))
  = [data (world (serverApp Secured exampleConfig alwaysFinds 7
                    (mkRequest POST "/api/addresses"
                       (VObj [("addresses", VArr twoAddresses)]))
                    admin exampleWorld))]
  /\ data (world (serverApp Secured exampleConfig alwaysFinds 7
                    (mkRequest POST "/api/addresses"
                       (VObj [("addresses", VArr twoAddresses)]))
                    admin exampleWorld))
     <> data exampleWorld.
Proof.
  destruct (every_change_of_the_document_is_written markerRuntime Secured
              exampleConfig alwaysFinds 7
              (mkRequest POST "/api/addresses"
                 (VObj [("addresses", VArr twoAddresses)]))
              admin exampleWorld) as [_ [[_ [Hd _]]|[Hw _]]].
  - discriminate Hd.
  - split; [exact Hw | discriminate].
Defined.

(** ** Which route changes which field *)

Section Keeps.

Context {R : Runtime} {A : Type}.
Variable f : Doc -> A.

Lemma respond_keeps (r : Response) : Keeps f (respond r).
Proof. intros sess w. reflexivity. Qed.

Lemma isAuthenticated_keeps (req : Request) (next : Handler) :
  Keeps f next -> Keeps f (isAuthenticated req next).
Proof.
  intros H sess w. unfold isAuthenticated.
  destruct (user sess); [apply H|].
  destruct (String.prefix "/api/" (path req)); reflexivity.
Qed.

Lemma authLimiter_keeps (next : Handler) :
  Keeps f next -> Keeps f (authLimiter next).
Proof.
  intros H sess w. unfold authLimiter.
  destruct (Nat.ltb (hits w) 10); [|reflexivity].
  exact (H sess (mkWorld (data w) (file w) (S (hits w)))).
Qed.

Lemma postSignin_keeps (v : Variant) (a : option string) (body : value) :
  Keeps f (postSignin v a body).
Proof. intros sess w. now rewrite postSignin_world. Qed.

Lemma adminPage_keeps (cfg : Config) : Keeps f (adminPage cfg).
Proof.
  intros sess w. unfold adminPage.
  destruct (publicFiles cfg "/admin.html"); reflexivity.
Qed.

End Keeps.

Lemma postRules_keeps_addresses (v : Variant) (body : value) :
  Keeps addresses (postRules v body).
Proof.
  intros sess w. unfold postRules.
  destruct (prop body "rules") as [[| | | |r| |]|]; reflexivity.
Qed.

Lemma postRules_keeps_password (v : Variant) (body : value) :
  Keeps adminPassword (postRules v body).
Proof.
  intros sess w. unfold postRules.
  destruct (prop body "rules") as [[| | | |r| |]|]; reflexivity.
Qed.

Lemma postAddresses_keeps_rules (v : Variant) (geo : Geocoder) (body : value) :
  Keeps rules (postAddresses v geo body).
Proof.
  intros sess w.
  destruct (postAddresses_world v geo body sess w) as [E|[l E]]; now rewrite E.
Qed.

Lemma postAddresses_keeps_password (v : Variant) (geo : Geocoder)
      (body : value) :
  Keeps adminPassword (postAddresses v geo body).
Proof.
  intros sess w.
  destruct (postAddresses_world v geo body sess w) as [E|[l E]]; now rewrite E.
Qed.

Ltac changePassword_cases body w salt :=
  unfold postChangePassword;
  destruct (prop body "currentPassword") as [?c|],
           (prop body "newPassword") as [?p|]; try reflexivity;
  match goal with
  | |- context [truthy ?c] =>
      match goal with
      | |- context [shorterThan8 ?p] =>
          destruct (negb (truthy c) || negb (truthy p)); try reflexivity;
          destruct (shorterThan8 p); try reflexivity;
          destruct (bcrypt_compare c (adminPassword (data w))) as [[|]|];
          try reflexivity;
          destruct (bcrypt_hash p salt); try reflexivity
      end
  end.

Lemma postChangePassword_keeps_addresses (R : Runtime) (salt : nat)
      (body : value) :
  Keeps addresses (postChangePassword salt body).
Proof. intros sess w. changePassword_cases body w salt. Qed.

Lemma postChangePassword_keeps_rules (R : Runtime) (salt : nat)
      (body : value) :
  Keeps rules (postChangePassword salt body).
Proof. intros sess w. changePassword_cases body w salt. Qed.

Lemma route_true (m : Method) (p : string) (req : Request) :
  route m p req = true
  <-> method req = m /\ matchesPath p (path req) = true.
Proof.
  unfold route. rewrite andb_true_iff.
  assert (Hm : sameMethod m (method req) = true <-> method req = m)
    by (destruct m, (method req); split; (reflexivity || discriminate)).
  now rewrite Hm.
Qed.

(** A path matches a route whatever the case of its letters, and with or
    without a slash at its end. *)
Example matchesPath_examples :
  matchesPath "/api/rules" "/api/rules" = true
  /\ matchesPath "/api/rules" "/API/Rules" = true
  /\ matchesPath "/api/rules" "/api/rules/" = true
  /\ matchesPath "/api/rules" "/api/rules//" = false
  /\ matchesPath "/api/rules" "/api/rules/x" = false
  /\ matchesPath "/api/rules" "/api" = false.
Proof. repeat split. Qed.

(** X2: each field of the document has one route that can change it, in
    either copy of the server: [rules] changes only by a POST that is
    routed to /api/rules (Express matches the path in any letter case, with
    or without a slash at its end), [addresses] only by one routed to
    /api/addresses and [adminPassword] only by one routed to
    /api/change-password, whatever the request holds. *)
Theorem fields_change_only_through_their_route :
  forall (R : Runtime) (v : Variant) (cfg : Config) (geo : Geocoder)
         (salt : nat) (req : Request) (sess : Session) (w : World),
    (route POST "/api/rules" req = false ->
       rules (data (world (serverApp v cfg geo salt req sess w)))
       = rules (data w))
    /\ (route POST "/api/addresses" req = false ->
        addresses (data (world (serverApp v cfg geo salt req sess w)))
        = addresses (data w))
    /\ (route POST "/api/change-password" req = false ->
        adminPassword (data (world (serverApp v cfg geo salt req sess w)))
        = adminPassword (data w)).
Proof.
  intros R v cfg geo salt req sess w.
  destruct v; simpl.
  - unfold plainApp.
    destruct (route GET "/api/addresses" req); [repeat split|].
    destruct (route GET "/api/rules" req); [repeat split|].
    destruct (route POST "/api/rules" req) eqn:Er.
    { split; [discriminate|]. split; intros _.
      - apply postRules_keeps_addresses.
      - apply postRules_keeps_password. }
    destruct (route POST "/api/addresses" req) eqn:Ea.
    { split; [intros _; apply postAddresses_keeps_rules|].
      split; [discriminate|]. intros _. apply postAddresses_keeps_password. }
    destruct (serveStatic cfg req); [repeat split|].
    destruct (route POST "/signin" req).
    { rewrite postSignin_world. repeat split. }
    destruct (route POST "/api/change-password" req) eqn:Ec.
    { split; [intros _; apply postChangePassword_keeps_rules|].
      split; [intros _; apply postChangePassword_keeps_addresses|].
      discriminate. }
    repeat split.
  - unfold securedApp.
    destruct (serveStatic cfg req); [repeat split|].
    destruct (route GET "/api/addresses" req); [repeat split|].
    destruct (route GET "/api/rules" req); [repeat split|].
    destruct (route POST "/api/rules" req) eqn:Er.
    { split; [discriminate|]. split; intros _.
      - apply isAuthenticated_keeps, postRules_keeps_addresses.
      - apply isAuthenticated_keeps, postRules_keeps_password. }
    destruct (route POST "/api/addresses" req) eqn:Ea.
    { split; [intros _; apply isAuthenticated_keeps, postAddresses_keeps_rules|].
      split; [discriminate|].
      intros _. apply isAuthenticated_keeps, postAddresses_keeps_password. }
    destruct (route GET "/admin.html" req).
    { repeat split; intros _; apply isAuthenticated_keeps, adminPage_keeps. }
    destruct (route POST "/signin" req).
    { repeat split; intros _; apply authLimiter_keeps, postSignin_keeps. }
    destruct (route POST "/api/signout" req); [repeat split|].
    destruct (route POST "/api/change-password" req) eqn:Ec.
    { split; [intros _; apply isAuthenticated_keeps, authLimiter_keeps,
                          postChangePassword_keeps_rules|].
      split; [intros _; apply isAuthenticated_keeps, authLimiter_keeps,
                          postChangePassword_keeps_addresses|].
      discriminate. }
    repeat split.
Qed.

(** ** What a visitor and what a GET can do *)

Lemma route_method (m m' : Method) (p : string) (req : Request) :
  method req = m -> sameMethod m' m = false -> route m' p req = false.
Proof. intros Hm Hs. unfold route. now rewrite Hm, Hs. Qed.

(** The sign-in handler sets the flag of a session that did not have it
    only for the configured username with a password that verifies. *)
Lemma postSignin_grants (R : Runtime) (v : Variant) (a : option string)
      (body : value) (sess : Session) (w : World) :
  user sess = false ->
  user (session (postSignin v a body sess w)) = true ->
  usernameCorrect a (field body "username") = true
  /\ verifies (field body "password") w = true.
Proof.
  intros Hu. unfold postSignin, verifies, field.
  destruct (prop body "username") as [u|], (prop body "password") as [p|];
    simpl; try congruence.
  destruct (usernameCorrect a u); simpl; [|congruence].
  destruct (bcrypt_compare p (adminPassword (data w))) as [[|]|]; simpl;
    try congruence.
  now split.
Qed.

Lemma postSignin_events (R : Runtime) (v : Variant) (a : option string)
      (body : value) (sess : Session) (w : World) :
  filter isWrite (events (postSignin v a body sess w)) = []
  /\ queries (events (postSignin v a body sess w)) = [].
Proof.
  unfold postSignin.
  destruct (prop body "username") as [u|], (prop body "password") as [p|];
    simpl; try (split; reflexivity).
  destruct (usernameCorrect a u); simpl; [|split; reflexivity].
  destruct (bcrypt_compare p (adminPassword (data w))) as [[|]|];
    split; reflexivity.
Qed.

(** X3: a client without a session changes nothing that is stored.  For
    every request to the secured copy made with a session whose flag is not
    set, [db.data] and the document last written are afterwards what they
    were, nothing is written and the geocoding service is not called; and
    the flag is set afterwards only when the request is a POST that Express
    routes to /signin and the limiter let through, with the configured
    username and a password for which the comparison with the stored hash
    resolves to true. *)
Theorem visitor_changes_nothing_stored :
  forall (R : Runtime) (cfg : Config) (geo : Geocoder) (salt : nat)
         (req : Request) (sess : Session) (w : World),
    user sess = false ->
    stored (world (securedApp cfg geo salt req sess w)) = stored w
    /\ filter isWrite (events (securedApp cfg geo salt req sess w)) = []
    /\ queries (events (securedApp cfg geo salt req sess w)) = []
    /\ (user (session (securedApp cfg geo salt req sess w)) = true ->
        method req = POST
        /\ matchesPath "/signin" (path req) = true
        /\ Nat.ltb (hits w) 10 = true
        /\ match ADMIN_USERNAME cfg with
           | Some a => field (body req) "username" = VStr a
           | None => field (body req) "username" = VUndefined
           end
        /\ bcrypt_compare (field (body req) "password") (adminPassword (data w))
           = Some true).
Proof.
  intros R cfg geo salt req sess w Hu.
  assert (Gate : forall next,
             isAuthenticated req next sess w
             = mkOutcome (reply (isAuthenticated req next sess w)) sess w []).
  { intros next. unfold isAuthenticated. rewrite Hu.
    destruct (String.prefix "/api/" (path req)); reflexivity. }
  unfold securedApp.
  destruct (serveStatic cfg req);
    [repeat split; simpl in *; congruence|].
  destruct (route GET "/api/addresses" req);
    [repeat split; simpl in *; congruence|].
  destruct (route GET "/api/rules" req);
    [repeat split; simpl in *; congruence|].
  destruct (route POST "/api/rules" req);
    [rewrite Gate; repeat split; simpl in *; congruence|].
  destruct (route POST "/api/addresses" req);
    [rewrite Gate; repeat split; simpl in *; congruence|].
  destruct (route GET "/admin.html" req);
    [rewrite Gate; repeat split; simpl in *; congruence|].
  destruct (route POST "/signin" req) eqn:Er.
  { apply route_true in Er as [Hm Hpath].
    unfold authLimiter. destruct (Nat.ltb (hits w) 10).
    - rewrite postSignin_world.
      destruct (postSignin_events R Secured (ADMIN_USERNAME cfg) (body req)
                  sess (mkWorld (data w) (file w) (S (hits w)))) as [Hw Hq].
      split; [reflexivity|]. split; [exact Hw|]. split; [exact Hq|].
      intros Hs.
      destruct (postSignin_grants R Secured (ADMIN_USERNAME cfg) (body req)
                  sess _ Hu Hs) as [H1 H2].
      split; [exact Hm|]. split; [exact Hpath|]. split; [reflexivity|].
      split; [now apply usernameCorrect_true|].
      unfold verifies in H2. simpl in H2.
      destruct (bcrypt_compare (field (body req) "password")
                               (adminPassword (data w))) as [[|]|];
        (reflexivity || discriminate H2).
    - repeat split; simpl in *; congruence. }
  destruct (route POST "/api/signout" req);
    [repeat split; simpl in *; congruence|].
  destruct (route POST "/api/change-password" req);
    [rewrite Gate; repeat split; simpl in *; congruence|].
  repeat split; simpl in *; congruence.
Qed.

Lemma visitor_changes_nothing_stored_witness :
  user visitor = false
  /\ stored (world (securedApp exampleConfig alwaysFinds 7
                      (mkRequest POST "/api/change-password"
                         (passwordForm "password123" "pumpkin-patch"))
                      visitor stubbornWorld))
     = stored stubbornWorld
  /\ stored (world (securedApp exampleConfig alwaysFinds 7
                      (mkRequest POST "/signin"
                         (signinForm "admin" "password123"))
                      visitor stubbornWorld))
     = stored stubbornWorld.
Proof.
  split; [reflexivity|]. split.
  - exact (proj1 (visitor_changes_nothing_stored markerRuntime exampleConfig
                    alwaysFinds 7
                    (mkRequest POST "/api/change-password"
                       (passwordForm "password123" "pumpkin-patch"))
                    visitor stubbornWorld eq_refl)).
  - exact (proj1 (visitor_changes_nothing_stored markerRuntime exampleConfig
                    alwaysFinds 7
                    (mkRequest POST "/signin"
                       (signinForm "admin" "password123"))
                    visitor stubbornWorld eq_refl)).
Defined.

(** X4: a GET changes nothing and calls no one.  In either copy of the
    server a GET request, to any path and with any session, leaves the
    world and the session as they were and has no event: no write, no
    call of the geocoding service or of bcrypt, no hit on the limiter. *)
Theorem get_changes_nothing :
  forall (R : Runtime) (v : Variant) (cfg : Config) (geo : Geocoder)
         (salt : nat) (p : string) (b : value) (sess : Session) (w : World),
    world (serverApp v cfg geo salt (mkRequest GET p b) sess w) = w
    /\ session (serverApp v cfg geo salt (mkRequest GET p b) sess w) = sess
    /\ events (serverApp v cfg geo salt (mkRequest GET p b) sess w) = [].
Proof.
  intros R v cfg geo salt p b sess w.
  set (req := mkRequest GET p b).
  assert (Post : forall q, route POST q req = false).
  { intros q. now apply (route_method GET). }
  destruct v; unfold serverApp.
  - unfold plainApp.
    destruct (route GET "/api/addresses" req); [repeat split|].
    destruct (route GET "/api/rules" req); [repeat split|].
    rewrite !Post.
    destruct (serveStatic cfg req); repeat split.
  - unfold securedApp.
    destruct (serveStatic cfg req); [repeat split|].
    destruct (route GET "/api/addresses" req); [repeat split|].
    destruct (route GET "/api/rules" req); [repeat split|].
    rewrite !Post.
    destruct (route GET "/admin.html" req); [|repeat split].
    unfold isAuthenticated, adminPage.
    destruct (user sess);
      [|destruct (String.prefix "/api/" (path req)); repeat split].
    destruct (publicFiles cfg "/admin.html"); repeat split.
Qed.

(** ** Signing in and out, and the limiter *)

Lemma field_present (body : value) (k : string) :
  isNullish body = false -> prop body k = Some (field body k).
Proof. intros H. unfold field. nullish_cases body H; reflexivity. Qed.

(** X5: signing in opens the gate and signing out closes it.  A sign-in
    that the limiter lets through, with the configured username and a
    password that verifies, returns a session with which POST /api/rules
    and POST /api/addresses run their handlers; after POST /api/signout the
    session is answered with 401 on the three POST routes again, and the
    sign-out itself changes nothing stored. *)
Theorem signin_opens_and_signout_closes_the_gate :
  forall (R : Runtime) (cfg : Config) (geo : Geocoder) (salt : nat)
         (username password : string) (body : value) (sess : Session)
         (w : World),
    Nat.ltb (hits w) 10 = true ->
    ADMIN_USERNAME cfg = Some username ->
    bcrypt_compare (VStr password) (adminPassword (data w)) = Some true ->
    let signedIn := securedApp cfg geo salt
                      (mkRequest POST "/signin" (signinForm username password))
                      sess w in
    let signedOut := securedApp cfg geo salt
                       (mkRequest POST "/api/signout" body)
                       (session signedIn) (world signedIn) in
    reply signedIn = toAdminPage
    /\ stored (world signedIn) = stored w
    /\ securedApp cfg geo salt (mkRequest POST "/api/rules" body)
                  (session signedIn) (world signedIn)
       = postRules Secured body (session signedIn) (world signedIn)
    /\ securedApp cfg geo salt (mkRequest POST "/api/addresses" body)
                  (session signedIn) (world signedIn)
       = postAddresses Secured geo body (session signedIn) (world signedIn)
    /\ world signedOut = world signedIn
    /\ (forall p, p = "/api/rules" \/ p = "/api/addresses"
                  \/ p = "/api/change-password" ->
                  securedApp cfg geo salt (mkRequest POST p body)
                             (session signedOut) (world signedOut)
                  = mkOutcome unauthorized (session signedOut)
                              (world signedOut) []).
Proof.
  intros R cfg geo salt username password body sess w Hhits Hname Hpw
         signedIn signedOut.
  assert (E : signedIn
              = mkOutcome toAdminPage (mkSession true)
                          (mkWorld (data w) (file w) (S (hits w)))
                          [Compare (VStr password) (adminPassword (data w))]).
  { unfold signedIn. rewrite signin_route, Hhits.
    unfold postSignin. simpl. rewrite Hname. simpl.
    rewrite String.eqb_refl, Hpw. reflexivity. }
  assert (E' : signedOut
               = mkOutcome (json 200 true "Signed out successfully.")
                           (mkSession false) (world signedIn) []).
  { unfold signedOut. reflexivity. }
  rewrite E', E. simpl. repeat split.
  intros p Hp. now apply secured_mutations_need_session.
Qed.

Lemma signin_opens_and_signout_closes_the_gate_witness :
  Nat.ltb (hits stubbornWorld) 10 = true
  /\ ADMIN_USERNAME exampleConfig = Some "admin"
  /\ reply (securedApp exampleConfig neverFinds 7
              (mkRequest POST "/signin" (signinForm "admin" "password123"))
              visitor stubbornWorld)
     = toAdminPage
  /\ stored (world (securedApp exampleConfig neverFinds 7
              (mkRequest POST "/signin" (signinForm "admin" "password123"))
              visitor stubbornWorld))
     = stored stubbornWorld.
Proof.
  split; [reflexivity|]. split; [reflexivity|].
  destruct (signin_opens_and_signout_closes_the_gate markerRuntime
              exampleConfig neverFinds 7 "admin" "password123" VNull
              visitor stubbornWorld eq_refl eq_refl eq_refl)
    as [H1 [H2 _]].
  split; [exact H1 | exact H2].
Defined.

(** The counter of the limiter after a run of sign-in submissions. *)
Lemma signinAttempts_counts (R : Runtime) (cfg : Config) (geo : Geocoder)
      (salt : nat) (forms : list (string * string)) :
  forall sess w,
    hits (snd (signinAttempts cfg geo salt forms sess w))
    = hits w + List.length forms
    /\ stored (snd (signinAttempts cfg geo salt forms sess w)) = stored w.
Proof.
  induction forms as [|[u p] forms IH]; intros sess w; simpl.
  - split; [lia | reflexivity].
  - rewrite signin_route.
    destruct (Nat.ltb (hits w) 10).
    + rewrite postSignin_world.
      destruct (IH (session
                      (postSignin Secured (ADMIN_USERNAME cfg) (signinForm u p)
                         sess (mkWorld (data w) (file w) (S (hits w)))))
                   (mkWorld (data w) (file w) (S (hits w))))
        as [Hh Hs].
      simpl in Hh, Hs. split; [rewrite Hh; lia | exact Hs].
    + simpl.
      destruct (IH sess (mkWorld (data w) (file w) (S (hits w)))) as [Hh Hs].
      simpl in Hh, Hs. split; [rewrite Hh; lia | exact Hs].
Qed.

(** X6: the eleventh attempt.  After ten sign-in submissions by a client
    whose window was fresh, whatever they held and however they ended, the
    next sign-in is answered with 429 even when its username and password
    are right: the session is left as it is and nothing stored changes. *)
Theorem eleventh_signin_is_refused :
  forall (R : Runtime) (cfg : Config) (geo : Geocoder) (salt : nat)
         (forms : list (string * string)) (username password : string)
         (sess : Session) (w : World),
    hits w = 0 ->
    List.length forms = 10 ->
    let before := signinAttempts cfg geo salt forms sess w in
    let out := securedApp cfg geo salt
                 (mkRequest POST "/signin" (signinForm username password))
                 (fst before) (snd before) in
    reply out = tooMany
    /\ session out = fst before
    /\ stored (world out) = stored w
    /\ events out = [].
Proof.
  intros R cfg geo salt forms username password sess w Hfresh Hten before out.
  destruct (signinAttempts_counts R cfg geo salt forms sess w) as [Hh Hs].
  fold before in Hh, Hs.
  assert (Hlim : Nat.ltb (hits (snd before)) 10 = false).
  { apply Nat.ltb_ge. lia. }
  unfold out. rewrite signin_route, Hlim. simpl. repeat split. exact Hs.
Qed.

Lemma eleventh_signin_is_refused_witness :
  hits stubbornWorld = 0
  /\ List.length tenWrongGuesses = 10
  /\ reply (securedApp exampleConfig neverFinds 7
              (mkRequest POST "/signin" (signinForm "admin" "password123"))
              (fst (signinAttempts exampleConfig neverFinds 7 tenWrongGuesses
                      visitor stubbornWorld))
              (snd (signinAttempts exampleConfig neverFinds 7 tenWrongGuesses
                      visitor stubbornWorld)))
     = tooMany.
Proof.
  split; [reflexivity|]. split; [reflexivity|].
  exact (proj1 (eleventh_signin_is_refused markerRuntime exampleConfig
                  neverFinds 7 tenWrongGuesses "admin" "password123"
                  visitor stubbornWorld eq_refl eq_refl)).
Defined.

(** ** The rules *)

(** X7: the rules are stored verbatim or not at all.  For a request with a
    session to POST /api/rules of the secured copy: when [rules] in the
    body is a string, the empty one included, it is stored as it is by one
    write, the addresses and the password stay, and GET /api/rules then
    answers anyone with exactly that string; when it is anything else
    (missing, [null], a number, an array, an object) the answer is 400 and
    nothing changes. *)
Theorem rules_are_stored_verbatim_or_rejected :
  forall (R : Runtime) (cfg : Config) (geo : Geocoder) (salt : nat)
         (body anyBody : value) (sess reader : Session) (w : World),
    user sess = true ->
    isNullish body = false ->
    publicFiles cfg "/api/rules" = false ->
    let out := securedApp cfg geo salt (mkRequest POST "/api/rules" body)
                          sess w in
    (forall r, field body "rules" = VStr r ->
       reply out = json 200 true "Rules updated successfully."
       /\ world out = written w (mkDoc (addresses (data w)) r
                                       (adminPassword (data w)))
       /\ filter isWrite (events out)
          = [Write (mkDoc (addresses (data w)) r (adminPassword (data w)))]
       /\ reply (securedApp cfg geo salt (mkRequest GET "/api/rules" anyBody)
                            reader (world out))
          = Sent (mkResponse 200 (JsonRules r)))
    /\ ((forall r, field body "rules" <> VStr r) ->
        out = mkOutcome (json 400 false "Invalid data format.") sess w []).
Proof.
  intros R cfg geo salt body anyBody sess reader w Hu Hbody Hpub out.
  assert (E : out = postRules Secured body sess w).
  { unfold out, securedApp, serveStatic, route, isAuthenticated. simpl.
    now rewrite Hu. }
  assert (G : forall w',
             securedApp cfg geo salt (mkRequest GET "/api/rules" anyBody)
                        reader w' = getRules reader w').
  { intros w'. unfold securedApp, serveStatic, route. simpl.
    now rewrite Hpub. }
  rewrite E. unfold postRules. rewrite (field_present body "rules" Hbody).
  split.
  - intros r Hr. rewrite Hr, G. simpl. repeat split.
  - intros Hnot. destruct (field body "rules") eqn:F; try reflexivity.
    exfalso. exact (Hnot s eq_refl).
Qed.

Lemma rules_are_stored_verbatim_or_rejected_witness :
  user admin = true
  /\ isNullish (rulesForm "Knock once. Be kind.") = false
  /\ publicFiles exampleConfig "/api/rules" = false
  /\ reply (securedApp exampleConfig neverFinds 7
              (mkRequest GET "/api/rules" VUndefined) visitor
              (world (securedApp exampleConfig neverFinds 7
                        (mkRequest POST "/api/rules"
                           (rulesForm "Knock once. Be kind."))
                        admin exampleWorld)))
     = Sent (mkResponse 200 (JsonRules "Knock once. Be kind.")).
Proof.
  split; [reflexivity|]. split; [reflexivity|]. split; [reflexivity|].
  destruct (rules_are_stored_verbatim_or_rejected markerRuntime exampleConfig
              neverFinds 7 (rulesForm "Knock once. Be kind.") VUndefined
              admin visitor exampleWorld eq_refl eq_refl eq_refl)
    as [Hstring _].
  destruct (Hstring "Knock once. Be kind." eq_refl) as [_ [_ [_ Hget]]].
  exact Hget.
Defined.

(** ** Start-up *)

(** X8: start-up upgrades a plaintext password and nothing else.  Whatever
    [db.json] holds, [startServer] ends with the file equal to the memory,
    the addresses and rules as found (the defaults when there is no file),
    and a fresh limiter.  A stored password that is not empty and does not
    begin with [$2] is replaced by its hash, against which exactly that
    password verifies; an empty password and one that begins with [$2] are
    kept as they are and nothing is hashed. *)
Theorem startServer_upgrades_plaintext_password :
  forall (R : Runtime) (fileContent : option Doc) (salt : nat),
    let found := match fileContent with
                 | Some d => d
                 | None => defaultData
                 end in
    exists w evs,
      startServer fileContent salt = (Some w, evs)
      /\ file w = data w
      /\ hits w = 0
      /\ addresses (data w) = addresses found
      /\ rules (data w) = rules found
      /\ (adminPassword found = EmptyString
          \/ String.prefix "$2" (adminPassword found) = true ->
          adminPassword (data w) = adminPassword found
          /\ evs = [Write found])
      /\ (adminPassword found <> EmptyString ->
          String.prefix "$2" (adminPassword found) = false ->
          bcrypt_hash (VStr (adminPassword found)) salt
          = Some (adminPassword (data w))
          /\ (forall p, bcrypt_compare (VStr p) (adminPassword (data w))
                        = Some (String.eqb p (adminPassword found)))
          /\ filter isWrite evs = [Write (data w); Write (data w)]).
Proof.
  intros R fileContent salt found. unfold startServer. fold found.
  destruct (adminPassword found) as [|c pw] eqn:Epw.
  - simpl. exists (mkWorld found found 0), [Write found].
    repeat split; try reflexivity; try (now symmetry).
  - change (truthy (VStr (String c pw))) with true.
    destruct (String.prefix "$2" (String c pw)) eqn:Epre.
    + exists (mkWorld found found 0), [Write found]. simpl.
      repeat split; try reflexivity; try (now symmetry); discriminate.
    + cbn [negb andb].
      destruct (bcrypt_hash (VStr (String c pw)) salt) as [h|] eqn:Eh.
      * exists (mkWorld (setAdminPassword found h) (setAdminPassword found h) 0),
               [Hash (VStr (String c pw)); Write (setAdminPassword found h);
                Write (setAdminPassword found h)].
        simpl. split; [reflexivity|]. split; [reflexivity|].
        split; [reflexivity|]. split; [reflexivity|]. split; [reflexivity|].
        split.
        -- intros [H|H]; discriminate H.
        -- intros _ _. split; [reflexivity|]. split; [|reflexivity].
           intros p. exact (compare_hash p _ salt h Eh).
      * exfalso. exact (hash_resolves _ salt Eh).
Qed.

(** The first start: with no [db.json] the default password is hashed and
    the default document, with the hash in it, is written. *)
Lemma startServer_without_file `{Runtime} (salt : nat) :
  exists h,
    bcrypt_hash (VStr "password123") salt = Some h
    /\ startServer None salt
       = (Some (mkWorld (setAdminPassword defaultData h)
                        (setAdminPassword defaultData h) 0),
          [Hash (VStr "password123"); Write (setAdminPassword defaultData h);
           Write (setAdminPassword defaultData h)]).
Proof.
  unfold startServer. simpl.
  destruct (bcrypt_hash (VStr "password123") salt) as [h|] eqn:Eh.
  - now exists h.
  - exfalso. exact (hash_resolves _ salt Eh).
Qed.

(** X9: the first start.  With no [db.json], after start-up the default
    password "password123" signs in under the configured username through
    the secured copy, and no other password does. *)
Theorem default_password_signs_in_after_first_start :
  forall (R : Runtime) (salt : nat) (cfg : Config) (geo : Geocoder)
         (username password : string) (sess : Session),
    ADMIN_USERNAME cfg = Some username ->
    exists w evs,
      startServer None salt = (Some w, evs)
      /\ addresses (data w) = []
      /\ (reply (securedApp cfg geo salt
                   (mkRequest POST "/signin" (signinForm username password))
                   sess w) = toAdminPage
          <-> password = "password123").
Proof.
  intros R salt cfg geo username password sess Hname.
  destruct (startServer_without_file salt) as [h [Eh E]].
  pose proof (fun p => compare_hash p _ salt h Eh) as Hcmp.
  eexists; eexists. split; [exact E|]. split; [reflexivity|].
  assert (Hhits : hits (mkWorld (setAdminPassword defaultData h)
                                (setAdminPassword defaultData h) 0) = 0)
    by reflexivity.
  rewrite signin_route, Hhits. simpl. unfold postSignin. simpl.
  rewrite Hname. simpl. rewrite String.eqb_refl. simpl in Hcmp.
  rewrite (Hcmp password).
  destruct (String.eqb_spec password "password123") as [->|Hne].
  - split; reflexivity.
  - split; [discriminate | congruence].
Qed.

Lemma default_password_signs_in_after_first_start_witness :
  ADMIN_USERNAME exampleConfig = Some "admin"
  /\ exists w evs,
       startServer None 7 = (Some w, evs)
       /\ addresses (data w) = []
       /\ (reply (securedApp exampleConfig neverFinds 7
                    (mkRequest POST "/signin" (signinForm "admin" "letmein"))
                    visitor w) = toAdminPage
           <-> "letmein" = "password123").
Proof.
  split; [reflexivity|].
  exact (default_password_signs_in_after_first_start markerRuntime 7
           exampleConfig neverFinds "admin" "letmein" visitor eq_refl).
Defined.

(** ** More on saving addresses *)

(** One turn of the loop leaves every property but [lat] and [lon] alone,
    and an address the test does not select entirely. *)
Lemma geocodeOne_frame (geo : Geocoder) (n : nat) (a a' : value)
      (evs : list Event) :
  geocodeOne geo n a = Some (a', evs) ->
  (needs a = false -> a' = a)
  /\ (forall k, k <> "lat" -> k <> "lon" -> field a' k = field a k).
Proof.
  intros E.
  destruct (isNullish a) eqn:Hnull.
  - now rewrite (geocodeOne_nullish geo n a Hnull) in E.
  - rewrite (geocodeOne_defined geo n a Hnull) in E.
    destruct (needs a) eqn:Hneeds.
    + split; [discriminate|].
      destruct (needs_is_object a Hneeds) as [o ->].
      destruct (stringifies (field (VObj o) "text"));
        [|now inversion E; subst].
      destruct (geo n (field (VObj o) "text")) as [|[|[la lo] ms]];
        inversion E; subst; try reflexivity.
      intros k Hlat Hlon. unfold field. simpl.
      now rewrite !lookup_assign_other.
    + inversion E; subst. now split.
Qed.

Lemma geocodeAll_pointwise (geo : Geocoder) (l : list value) :
  forall n l',
    fst (geocodeAll geo n l) = Some l' ->
    Forall2 (fun a a' => exists m evs, geocodeOne geo m a = Some (a', evs))
            l l'.
Proof.
  induction l as [|a l IH]; intros n l' E; simpl in E.
  - inversion E. constructor.
  - destruct (geocodeOne geo n a) as [[a' evs]|] eqn:E1; [|discriminate E].
    simpl in E.
    destruct (fst (geocodeAll geo (n + requests a) l))
      as [r|] eqn:E2; [|discriminate E].
    inversion E; subst. constructor.
    + now exists n, evs.
    + exact (IH _ _ E2).
Qed.

(** X10: a save changes coordinates and nothing else.  For every submitted
    array without [null], the stored list has the addresses of the
    submitted one in the same order, each with every property other than
    [lat] and [lon] as submitted (the text and the instructions among
    them), and each address the loop does not select is stored exactly as
    submitted. *)
Theorem save_changes_only_coordinates :
  forall (v : Variant) (geo : Geocoder) (body : value) (l : list value)
         (sess : Session) (w : World),
    prop body "addresses" = Some (VArr l) ->
    Forall present l ->
    Forall2 (fun a a' =>
               (needs a = false -> a' = a)
               /\ (forall k, k <> "lat" -> k <> "lon" ->
                             field a' k = field a k))
            l (addresses (data (world (postAddresses v geo body sess w)))).
Proof.
  intros v geo body l sess w Hb Hl.
  destruct (postAddresses_array v geo body l sess w Hb Hl) as [l' [E [_ P]]].
  rewrite P. simpl.
  eapply Forall2_impl; [|exact (geocodeAll_pointwise geo l 0 l' E)].
  intros a a' [m [evs Ea]]. exact (geocodeOne_frame geo m a a' evs Ea).
Qed.

Lemma save_changes_only_coordinates_witness :
  Forall present twoAddresses
  /\ Forall2 (fun a a' =>
                (needs a = false -> a' = a)
                /\ (forall k, k <> "lat" -> k <> "lon" ->
                              field a' k = field a k))
             twoAddresses
             (addresses (data (world (postAddresses Secured alwaysFinds
                (VObj [("addresses", VArr twoAddresses)]) admin exampleWorld)))).
Proof.
  split; [repeat constructor|].
  apply (save_changes_only_coordinates Secured alwaysFinds
           (VObj [("addresses", VArr twoAddresses)]) twoAddresses
           admin exampleWorld eq_refl).
  repeat constructor.
Defined.


Lemma postAddresses_spaced_witness :
  (forall n q, alwaysFinds n q <> GeoFails)
  /\ delayedAfterEach 1000
       (events (postAddresses Secured alwaysFinds
                  (VObj [("addresses", VArr [VObj [("text", VStr mainSt)];
                                             VObj [("text", VStr mirroolSt)]])])
                  admin exampleWorld))
     = true
  /\ spaced 1000
       (events (postAddresses Secured alwaysFinds
                  (VObj [("addresses", VArr [VObj [("text", VStr mainSt)];
                                             VObj [("text", VStr mirroolSt)]])])
                  admin exampleWorld))
     = true.
Proof.
  split; [discriminate|].
  apply (postAddresses_spaced Secured alwaysFinds). discriminate.
Defined.


(** ** More on the admin client *)

Lemma handleEdit_shows_street_part_witness :
  nth_error [movedSouth] 0 = Some movedSouth
  /\ prop movedSouth "text" = Some (VStr mainSt)
  /\ exists streetPart,
       handleEdit 0 [movedSouth] = Some streetPart
       /\ endsWith (toLowerCase streetPart) locationSuffix = false.
Proof.
  split; [reflexivity|]. split; [reflexivity|].
  exact (handleEdit_shows_street_part 0 [movedSouth] movedSouth mainSt
           eq_refl eq_refl).
Defined.

Lemma setNth_length {A : Type} (x : A) (l : list A) :
  forall i, List.length (setNth i x l) = List.length l.
Proof.
  induction l as [|y l IH]; intros [|i]; simpl; try reflexivity.
  now rewrite IH.
Qed.

Lemma setNth_same {A : Type} (x : A) (l : list A) :
  forall i y, nth_error l i = Some y -> nth_error (setNth i x l) i = Some x.
Proof.
  induction l as [|z l IH]; intros [|i] y H; simpl in *; try discriminate.
  - reflexivity.
  - exact (IH i y H).
Qed.

Lemma setNth_other {A : Type} (x : A) (l : list A) :
  forall i j, i <> j -> nth_error (setNth i x l) j = nth_error l j.
Proof.
  induction l as [|z l IH]; intros [|i] [|j] H; simpl; try reflexivity.
  - congruence.
  - apply IH. congruence.
Qed.

(** X15: saving an edit touches one entry.  For an address object at
    [index], Save leaves the list as long as it was and every other entry
    as it was; the entry gets the text "street part, space, suffix" with
    the trimmed content of the box; its [lat] and [lon] keep their values
    when that text is the old text and are removed when it is not; and
    every property other than [text], [instructions], [lat] and [lon]
    stays. *)
Theorem saveEdit_touches_one_entry :
  forall (index : nat) (inputValue instructionsValue : string)
         (currentAddresses : list value) (o : obj),
    nth_error currentAddresses index = Some (VObj o) ->
    let newText := (trim inputValue ++ " " ++ locationSuffix)%string in
    exists (l' : list value) (o' : obj),
      saveEdit index inputValue instructionsValue currentAddresses = Some l'
      /\ List.length l' = List.length currentAddresses
      /\ (forall j, j <> index -> nth_error l' j = nth_error currentAddresses j)
      /\ nth_error l' index = Some (VObj o')
      /\ lookup "text" o' = VStr newText
      /\ (lookup "text" o = VStr newText ->
          lookup "lat" o' = lookup "lat" o /\ lookup "lon" o' = lookup "lon" o)
      /\ (lookup "text" o <> VStr newText ->
          hasOwn "lat" o' = false /\ hasOwn "lon" o' = false)
      /\ (forall k, k <> "text" -> k <> "instructions" -> k <> "lat" ->
                    k <> "lon" -> lookup k o' = lookup k o).
Proof.
  intros index inputValue instructionsValue currentAddresses o Hi newText.
  unfold saveEdit. rewrite Hi. simpl.
  set (old := lookup "text" o).
  destruct (strictEqStr newText old) eqn:E.
  - exists (setNth index
              (editedEntry (VObj o) old inputValue instructionsValue)
              currentAddresses).
    unfold editedEntry. fold newText. rewrite E. simpl.
    eexists. split; [reflexivity|].
    split; [apply setNth_length|].
    split; [intros j Hj; apply setNth_other; congruence|].
    split; [exact (setNth_same _ _ _ _ Hi)|].
    split; [rewrite lookup_assign_other by discriminate;
            apply lookup_assign_same|].
    split; [intros _; split; rewrite !lookup_assign_other by discriminate;
            reflexivity|].
    split.
    + intros Hne. exfalso. apply Hne. unfold strictEqStr in E.
      destruct old; try discriminate E. apply String.eqb_eq in E. now subst.
    + intros k H1 H2 H3 H4. now rewrite !lookup_assign_other.
  - exists (setNth index
              (editedEntry (VObj o) old inputValue instructionsValue)
              currentAddresses).
    unfold editedEntry. fold newText. rewrite E. simpl.
    eexists. split; [reflexivity|].
    split; [apply setNth_length|].
    split; [intros j Hj; apply setNth_other; congruence|].
    split; [exact (setNth_same _ _ _ _ Hi)|].
    split; [rewrite lookup_assign_other by discriminate;
            apply lookup_assign_same|].
    split.
    + intros Heq. exfalso. rewrite Heq in E. simpl in E.
      now rewrite String.eqb_refl in E.
    + split.
      * intros _. rewrite !hasOwn_assign, !hasOwn_remove. now split.
      * intros k H1 H2 H3 H4.
        now rewrite !lookup_assign_other, !lookup_remove_other.
Qed.

Lemma saveEdit_touches_one_entry_witness :
  nth_error [movedSouth; onEquator] 0 = Some movedSouth
  /\ exists (l' : list value) (o' : obj),
       saveEdit 0 "14 Main St" "side gate" [movedSouth; onEquator] = Some l'
       /\ List.length l' = 2
       /\ nth_error l' 1 = Some onEquator
       /\ nth_error l' 0 = Some (VObj o')
       /\ lookup "text" o' = VStr "14 Main St  ardlethan nsw 2665"
       /\ hasOwn "lat" o' = false.
Proof.
  split; [reflexivity|].
  destruct (saveEdit_touches_one_entry 0 "14 Main St" "side gate"
              [movedSouth; onEquator]
              [("text", VStr mainSt); ("lat", VNum (-34.33)%float);
               ("lon", VNum 146.9%float)] eq_refl)
    as [l' [o' [H1 [H2 [H3 [H4 [H5 [_ [H7 _]]]]]]]]].
  exists l', o'. split; [exact H1|]. split; [exact H2|].
  split; [apply (H3 1); discriminate|]. split; [exact H4|].
  split; [exact H5|]. apply H7. discriminate.
Defined.

Lemma splice1_nth {A : Type} (l : list A) :
  forall index j,
    nth_error (splice1 index l) j
    = if Nat.ltb j index then nth_error l j else nth_error l (S j).
Proof.
  induction l as [|y l IH]; intros [|i] [|j]; simpl; try reflexivity.
  - change (Nat.ltb (S j) (S i)) with (Nat.ltb j i).
    now destruct (Nat.ltb j i).
  - rewrite IH. reflexivity.
Qed.

Lemma splice1_length {A : Type} (l : list A) :
  forall index,
    List.length (splice1 index l)
    = if Nat.ltb index (List.length l) then List.length l - 1
      else List.length l.
Proof.
  induction l as [|y l IH]; intros [|i]; simpl; try reflexivity.
  - lia.
  - rewrite IH. change (Nat.ltb (S i) (S (List.length l)))
      with (Nat.ltb i (List.length l)).
    destruct (Nat.ltb i (List.length l)) eqn:E; [|reflexivity].
    apply Nat.ltb_lt in E. lia.
Qed.

(** X16: Delete removes the entry at the index and no other.  For an
    index that holds an entry which is not [null] and whose text has a
    string, a confirmed delete gives a list one shorter in which the
    entries before the index are where they were and the entries after it
    have moved down by one, and a delete that is not confirmed leaves the
    list as it is.  For an index that holds no entry, an entry that is
    [null], or a text without a string, building the question raises: the
    admin is not asked and nothing is removed. *)
Theorem handleDelete_removes_one_entry :
  forall (index : nat) (currentAddresses : list value),
    (forall entry,
        nth_error currentAddresses index = Some entry ->
        isNullish entry = false ->
        stringifies (field entry "text") = true ->
        (exists l',
            handleDelete index true currentAddresses = Some l'
            /\ S (List.length l') = List.length currentAddresses
            /\ forall j, nth_error l' j
                         = if Nat.ltb j index then nth_error currentAddresses j
                           else nth_error currentAddresses (S j))
        /\ handleDelete index false currentAddresses = Some currentAddresses)
    /\ (forall confirmed,
           nth_error currentAddresses index = None
           \/ (exists entry,
                  nth_error currentAddresses index = Some entry
                  /\ (isNullish entry = true
                      \/ stringifies (field entry "text") = false)) ->
           handleDelete index confirmed currentAddresses = None).
Proof.
  intros index currentAddresses. split.
  - intros entry Hi Hnull Hstr. unfold handleDelete. rewrite Hi.
    rewrite (field_present entry "text" Hnull), Hstr. split; [|reflexivity].
    eexists. split; [reflexivity|]. split; [|intros j; apply splice1_nth].
    rewrite splice1_length.
    assert (Hlt : index < List.length currentAddresses)
      by (apply nth_error_Some; congruence).
    apply Nat.ltb_lt in Hlt as Hb. rewrite Hb. lia.
  - intros confirmed [Hnone|[entry [Hi [Hnull|Hstr]]]]; unfold handleDelete.
    + now rewrite Hnone.
    + rewrite Hi. destruct entry; try discriminate Hnull; reflexivity.
    + rewrite Hi. unfold field in Hstr.
      destruct (prop entry "text"); [now rewrite Hstr | reflexivity].
Qed.

(** Delete on the second of two addresses, and on a list that holds
    [null]. *)
Lemma handleDelete_removes_one_entry_witness :
  (exists l', handleDelete 1 true twoAddresses = Some l'
              /\ S (List.length l') = 2
              /\ nth_error l' 0 = Some (VObj [("text", VStr mainSt)])
              /\ nth_error l' 1 = None)
  /\ handleDelete 1 false twoAddresses = Some twoAddresses
  /\ handleDelete 0 true [VNull; VObj [("text", VStr mainSt)]] = None
  /\ handleDelete 2 true twoAddresses = None.
Proof.
  destruct (handleDelete_removes_one_entry 1 twoAddresses) as [Hok _].
  destruct (Hok _ eq_refl eq_refl eq_refl) as [[l' [E [L N]]] Hno].
  split.
  { exists l'. split; [exact E|]. split; [exact L|].
    split; [exact (N 0) | exact (N 1)]. }
  split; [exact Hno|]. split.
  - apply (handleDelete_removes_one_entry 0 [VNull; VObj [("text", VStr mainSt)]]).
    right. exists VNull. split; [reflexivity | now left].
  - apply (handleDelete_removes_one_entry 2 twoAddresses). now left.
Defined.

(** What the wire makes of an object: a property that is not [undefined]
    arrives as the wire form of its value. *)
Lemma wire_object_field (k : string) (o : obj) :
  lookup k o <> VUndefined ->
  field (wire (VObj o)) k = wire (lookup k o).
Proof.
  induction o as [|[k1 x] o IH]; intros H.
  - now elim H.
  - simpl in H. unfold field in *. simpl in *.
    destruct (String.eqb k k1) eqn:E.
    + destruct x; try (simpl; rewrite E; reflexivity). now elim H.
    + destruct x; try (simpl; rewrite E); exact (IH H).
Qed.

Lemma wire_truthy_number (x : float) :
  truthy (VNum x) = true -> PrimFloat.is_infinity x = false ->
  wire (VNum x) = VNum x.
Proof.
  simpl. intros Ht Hi. rewrite Hi.
  destruct (PrimFloat.is_nan x); [now rewrite orb_true_r in Ht|].
  destruct (PrimFloat.is_zero x); [discriminate Ht | reflexivity].
Qed.

Lemma present_map_wire_objects (l : list value) :
  Forall (fun a => exists o, a = VObj o) l -> Forall present (map wire l).
Proof.
  induction 1 as [|a l [o ->] _ IH]; simpl; constructor; [reflexivity|exact IH].
Qed.


Lemma objects_setNth (l : list value) (x : value) :
  Forall isObject l -> isObject x -> forall i, Forall isObject (setNth i x l).
Proof.
  intros Hl Hx. induction Hl as [|a l Ha Hl IH]; intros [|i]; simpl;
    constructor; auto.
Qed.

Lemma objects_map_VObj (l : list obj) : Forall isObject (map VObj l).
Proof. induction l; constructor; [now eexists | assumption]. Qed.

Lemma present_wire_objects (l : list value) :
  Forall isObject l -> Forall present (map wire l).
Proof.
  induction 1 as [|a l [o ->] _ IH]; simpl; constructor; [reflexivity|exact IH].
Qed.

(** X17: a pinned location survives the save.  When the admin confirms a
    marker position with non-zero, finite coordinates for an entry of a
    list of address objects, the list is posted and saved, and the stored
    address at that position has exactly the pinned [lat] and [lon]: the
    server does not geocode it over, whatever the service would answer. *)
Theorem pinned_location_survives_the_save :
  forall (v : Variant) (geo : Geocoder) (l : list obj) (i : nat) (o : obj)
         (lat lng : float) (sess : Session) (w : World),
    nth_error l i = Some o ->
    truthy (VNum lat) = true ->
    truthy (VNum lng) = true ->
    PrimFloat.is_infinity lat = false ->
    PrimFloat.is_infinity lng = false ->
    exists (l1 : list value) (a' : value),
      saveLocation i lat lng (map VObj l) = Some l1
      /\ reply (postAddresses v geo (saveAddresses l1) sess w) = saved
      /\ nth_error
           (addresses (data (world (postAddresses v geo (saveAddresses l1)
                                                  sess w)))) i
         = Some a'
      /\ field a' "lat" = VNum lat
      /\ field a' "lon" = VNum lng.
Proof.
  intros v geo l i o lat lng sess w Hi Tlat Tlng Flat Flng.
  assert (Hi' : nth_error (map VObj l) i = Some (VObj o))
    by (now apply map_nth_error).
  set (o1 := assign "lon" (VNum lng) (assign "lat" (VNum lat) o)).
  set (l1 := setNth i (VObj o1) (map VObj l)).
  assert (Hsave : saveLocation i lat lng (map VObj l) = Some l1).
  { unfold saveLocation. now rewrite Hi'. }
  assert (Hobj : Forall isObject l1).
  { apply objects_setNth; [apply objects_map_VObj | now exists o1]. }
  assert (Hbody : prop (saveAddresses l1) "addresses"
                  = Some (VArr (map wire l1))) by reflexivity.
  destruct (postAddresses_array v geo (saveAddresses l1) (map wire l1) sess w
              Hbody (present_wire_objects l1 Hobj)) as [l' [E [_ Out]]].
  assert (Hnth : nth_error (map wire l1) i = Some (wire (VObj o1))).
  { apply map_nth_error. exact (setNth_same _ _ _ _ Hi'). }
  assert (Llat : lookup "lat" o1 = VNum lat).
  { unfold o1. rewrite lookup_assign_other by discriminate.
    apply lookup_assign_same. }
  assert (Llon : lookup "lon" o1 = VNum lng) by apply lookup_assign_same.
  assert (Wlat : field (wire (VObj o1)) "lat" = VNum lat).
  { rewrite wire_object_field; rewrite Llat; [|discriminate].
    now apply wire_truthy_number. }
  assert (Wlon : field (wire (VObj o1)) "lon" = VNum lng).
  { rewrite wire_object_field; rewrite Llon; [|discriminate].
    now apply wire_truthy_number. }
  exists l1, (wire (VObj o1)). split; [exact Hsave|].
  rewrite Out. simpl. split; [reflexivity|].
  split; [|split; assumption].
  apply (geocodeAll_keeps_truthy_coordinates geo (map wire l1) 0 l' i _ E Hnth).
  - now rewrite Wlat.
  - now rewrite Wlon.
Qed.

Lemma pinned_location_survives_the_save_witness :
  exists (l1 : list value) (a' : value),
    saveLocation 0 (-34.5)%float 146.75%float
                 (map VObj [[("text", VStr mainSt)]]) = Some l1
    /\ reply (postAddresses Secured alwaysFinds (saveAddresses l1)
                            admin exampleWorld) = saved
    /\ nth_error
         (addresses (data (world (postAddresses Secured alwaysFinds
                                    (saveAddresses l1) admin exampleWorld)))) 0
       = Some a'
    /\ field a' "lat" = VNum (-34.5)%float
    /\ field a' "lon" = VNum 146.75%float.
Proof.
  exact (pinned_location_survives_the_save Secured alwaysFinds
           [[("text", VStr mainSt)]] 0 [("text", VStr mainSt)]
           (-34.5)%float 146.75%float admin exampleWorld
           eq_refl eq_refl eq_refl eq_refl eq_refl).
Defined.



(** ** The password form *)

(** The handler on two strings. *)
Lemma postChangePassword_strings (R : Runtime) (salt : nat)
      (current new : string) (sess : Session) (w : World) :
  8 <= String.length new ->
  postChangePassword salt (passwordForm current new) sess w
  = match current with
    | EmptyString =>
        mkOutcome (json 400 false "Current and new passwords are required.")
                  sess w []
    | _ =>
        match bcrypt_compare (VStr current) (adminPassword (data w)) with
        | None => mkOutcome Thrown sess w
                            [Compare (VStr current) (adminPassword (data w))]
        | Some false =>
            mkOutcome (json 401 false "Incorrect current password.") sess w
                      [Compare (VStr current) (adminPassword (data w))]
        | Some true =>
            match bcrypt_hash (VStr new) salt with
            | None => mkOutcome Thrown sess w
                        [Compare (VStr current) (adminPassword (data w));
                         Hash (VStr new)]
            | Some h =>
                mkOutcome (json 200 true "Password updated successfully.")
                  sess (written w (setAdminPassword (data w) h))
                  [Compare (VStr current) (adminPassword (data w));
                   Hash (VStr new);
                   Write (setAdminPassword (data w) h)]
            end
        end
    end.
Proof.
  intros Hlen. unfold postChangePassword, passwordForm.
  cbn [prop lookup String.eqb Ascii.eqb Bool.eqb].
  change (prop (VObj [("currentPassword", VStr current);
                      ("newPassword", VStr new)]) "currentPassword")
    with (Some (VStr current)).
  change (prop (VObj [("currentPassword", VStr current);
                      ("newPassword", VStr new)]) "newPassword")
    with (Some (VStr new)).
  rewrite (truthy_nonempty new (nonempty_of_length new Hlen)).
  unfold shorterThan8. apply Nat.ltb_ge in Hlen. rewrite Hlen.
  destruct current; reflexivity.
Qed.

(** X19: what the password form lets through, the server takes.  When the
    form posts at all, the two new passwords were equal and at least 8
    characters long, and for a signed-in admin under the limit the server
    never answers with its own length error: an empty current password is
    answered with 400, one that does not verify with 401, both without any
    change, and one that verifies changes the password, after which a
    password verifies exactly when it is the confirmed one. *)
Theorem password_form_submission_is_taken :
  forall (R : Runtime) (cfg : Config) (geo : Geocoder) (salt : nat)
         (current new confirm : string) (body : value) (sess : Session)
         (w : World),
    changePasswordForm current new confirm = inr body ->
    user sess = true ->
    Nat.ltb (hits w) 10 = true ->
    let out := securedApp cfg geo salt
                 (mkRequest POST "/api/change-password" body) sess w in
    new = confirm
    /\ 8 <= String.length new
    /\ (current = EmptyString ->
        reply out = json 400 false "Current and new passwords are required."
        /\ stored (world out) = stored w)
    /\ (current <> EmptyString ->
        bcrypt_compare (VStr current) (adminPassword (data w)) = Some false ->
        reply out = json 401 false "Incorrect current password."
        /\ stored (world out) = stored w)
    /\ (current <> EmptyString ->
        bcrypt_compare (VStr current) (adminPassword (data w)) = Some true ->
        reply out = json 200 true "Password updated successfully."
        /\ forall p, bcrypt_compare (VStr p)
                       (adminPassword (file (world out)))
                     = Some (String.eqb p confirm)).
Proof.
  intros R cfg geo salt current new confirm body sess w Hform Hu Hhits out.
  unfold changePasswordForm in Hform.
  destruct (String.eqb_spec new confirm) as [Heq|Hne]; [|discriminate Hform].
  simpl in Hform.
  destruct (Nat.ltb (String.length new) 8) eqn:Hlen; [discriminate Hform|].
  apply Nat.ltb_ge in Hlen.
  assert (Hbody : body = passwordForm current new) by (now inversion Hform).
  assert (E : out = postChangePassword salt (passwordForm current new) sess
                      (mkWorld (data w) (file w) (S (hits w)))).
  { unfold out, securedApp, serveStatic, route, isAuthenticated, authLimiter.
    simpl. now rewrite Hu, Hhits, Hbody. }
  rewrite E, (postChangePassword_strings R salt current new sess _ Hlen).
  split; [exact Heq|]. split; [exact Hlen|]. simpl. split; [|split].
  - intros ->. now split.
  - intros Hcur Hcmp. destruct current; [congruence|]. rewrite Hcmp. now split.
  - intros Hcur Hcmp. destruct current; [congruence|]. rewrite Hcmp.
    destruct (bcrypt_hash (VStr new) salt) as [h|] eqn:Eh.
    + simpl. split; [reflexivity|]. intros p. subst confirm.
      exact (compare_hash p new salt h Eh).
    + exfalso. exact (hash_resolves new salt Eh).
Qed.

Lemma password_form_submission_is_taken_witness :
  changePasswordForm "password123" "pumpkin-patch" "pumpkin-patch"
  = inr (passwordForm "password123" "pumpkin-patch")
  /\ user admin = true
  /\ Nat.ltb (hits stubbornWorld) 10 = true
  /\ reply (securedApp exampleConfig neverFinds 7
              (mkRequest POST "/api/change-password"
                 (passwordForm "password123" "pumpkin-patch"))
              admin stubbornWorld)
     = json 200 true "Password updated successfully.".
Proof.
  split; [reflexivity|]. split; [reflexivity|]. split; [reflexivity|].
  destruct (password_form_submission_is_taken markerRuntime exampleConfig
              neverFinds 7 "password123" "pumpkin-patch" "pumpkin-patch"
              (passwordForm "password123" "pumpkin-patch") admin stubbornWorld
              eq_refl eq_refl eq_refl) as [_ [_ [_ [_ Hok]]]].
  assert (Hcur : "password123" <> EmptyString) by discriminate.
  exact (proj1 (Hok Hcur eq_refl)).
Defined.

(** ** The landing page *)

Lemma lacks_append (c : ascii) (a b : string) :
  lacks c (a ++ b)%string = lacks c a && lacks c b.
Proof.
  induction a as [|x a IH]; simpl; [reflexivity|].
  now rewrite IH, andb_assoc.
Qed.

(** Replacing every [c] by an entity without [c] leaves no [c], and brings
    in no other character that the entity does not hold. *)
Lemma replaceAll_removes (c : ascii) (entity s : string) :
  lacks c entity = true -> lacks c (replaceAll c entity s) = true.
Proof.
  intros He. induction s as [|x s IH]; simpl; [reflexivity|].
  destruct (Ascii.eqb x c) eqn:E.
  - now rewrite lacks_append, He, IH.
  - simpl. now rewrite E, IH.
Qed.

Lemma replaceAll_keeps_out (c d : ascii) (entity s : string) :
  lacks d entity = true -> lacks d s = true ->
  lacks d (replaceAll c entity s) = true.
Proof.
  intros He. induction s as [|x s IH]; simpl; [reflexivity|].
  intros H. apply andb_true_iff in H as [Hx Hs].
  destruct (Ascii.eqb x c).
  - now rewrite lacks_append, He, IH.
  - simpl. now rewrite Hx, IH.
Qed.

Lemma noAngle_lacks (s : string) :
  noAngle s = lacks "<"%char s && lacks ">"%char s.
Proof.
  induction s as [|x s IH]; simpl; [reflexivity|]. rewrite IH.
  destruct (Ascii.eqb x "<"), (Ascii.eqb x ">"),
           (lacks "<" s), (lacks ">" s); reflexivity.
Qed.

Lemma sanitize_noAngle (s : string) : noAngle (sanitize s) = true.
Proof.
  rewrite noAngle_lacks. unfold sanitize. apply andb_true_iff. split.
  - apply replaceAll_keeps_out; [reflexivity|].
    now apply replaceAll_removes.
  - now apply replaceAll_removes.
Qed.

Lemma popupNote_noAngle (address : value) (n : option string) :
  popupNote address = Some n ->
  match n with
  | Some s => noAngle s = true
  | None => True
  end.
Proof.
  unfold popupNote.
  destruct (field address "instructions") as [| |b|x|s|items|fields];
    try (destruct (truthy _); intros E; inversion E; exact I).
  destruct (isEmpty s); intros E; inversion E; [exact I|].
  apply sanitize_noAngle.
Qed.

(** X20: no angle bracket of the instructions reaches a popup.  Whatever
    the list of addresses holds, the instructions shown under every marker
    the loop puts on the map contain no [<] and no [>]. *)
Theorem popup_instructions_hold_no_angle_bracket :
  forall (l : list value),
    Forall (fun m => match note m with
                     | Some s => noAngle s = true
                     | None => True
                     end)
           (fst (markers l)).
Proof.
  induction l as [|a l IH]; cbn [markers]; [constructor|].
  destruct (plotted a) as [[|]|]; [|exact IH|constructor].
  destruct (stringifies (field a "text")); [|constructor].
  destruct (popupNote a) as [n|] eqn:En; [|constructor].
  cbn [fst]. constructor; [|exact IH].
  cbn [note]. exact (popupNote_noAngle a n En).
Qed.



(** ** Edit on a text that Edit wrote *)

Lemma length_append (a b : string) :
  String.length (a ++ b)%string = String.length a + String.length b.
Proof. induction a as [|c a IH]; simpl; [reflexivity | now rewrite IH]. Qed.

Lemma toLowerCase_append (a b : string) :
  toLowerCase (a ++ b)%string = (toLowerCase a ++ toLowerCase b)%string.
Proof. induction a as [|c a IH]; simpl; [reflexivity | now rewrite IH]. Qed.

Lemma substring_all (b : string) :
  String.substring 0 (String.length b) b = b.
Proof. induction b as [|c b IH]; simpl; [reflexivity | now rewrite IH]. Qed.

Lemma substring_tail (a b : string) :
  String.substring (String.length a) (String.length b) (a ++ b)%string = b.
Proof. induction a as [|c a IH]; simpl; [apply substring_all | exact IH]. Qed.

Lemma substring_head (a b : string) :
  String.substring 0 (String.length a) (a ++ b)%string = a.
Proof.
  induction a as [|c a IH]; simpl.
  - now destruct b.
  - now rewrite IH.
Qed.

Lemma endsWith_append (a b : string) : endsWith (a ++ b)%string b = true.
Proof.
  unfold endsWith. rewrite length_append.
  replace (String.length a + String.length b - String.length b)
    with (String.length a) by lia.
  rewrite substring_tail, String.eqb_refl, andb_true_r.
  apply Nat.leb_le. lia.
Qed.

Lemma trimEnd_append_space (c : ascii) (s : string) :
  isSpace c = true -> trimEnd (s ++ String c EmptyString)%string = trimEnd s.
Proof.
  intros Hc. induction s as [|x s IH]; simpl.
  - now rewrite Hc.
  - now rewrite IH.
Qed.

Lemma trimEnd_idempotent (s : string) : trimEnd (trimEnd s) = trimEnd s.
Proof.
  induction s as [|x s IH]; simpl; [reflexivity|].
  destruct (trimEnd s) as [|y t] eqn:E.
  - destruct (isSpace x) eqn:Ex; simpl; [reflexivity | now rewrite Ex].
  - simpl in *. now rewrite IH.
Qed.

(** A trimmed string is empty or begins with a character that is not white
    space. *)
Lemma trim_head (s : string) :
  trim s = EmptyString
  \/ exists c t, trim s = String c t /\ isSpace c = false.
Proof.
  unfold trim.
  assert (H : trimStart s = EmptyString
              \/ exists c t, trimStart s = String c t /\ isSpace c = false).
  { induction s as [|x s IH]; simpl; [now left|].
    destruct (isSpace x) eqn:Ex; [exact IH|]. right. now exists x, s. }
  destruct H as [->|[c [t [-> Hc]]]]; [now left|].
  simpl. destruct (trimEnd t) as [|y u].
  - rewrite Hc. right. now exists c, EmptyString.
  - right. now exists c, (String y u).
Qed.

Lemma trim_idempotent (s : string) : trim (trim s) = trim s.
Proof.
  destruct (trim_head s) as [E|[c [t [E Hc]]]].
  - now rewrite E.
  - unfold trim at 1. rewrite E. simpl. rewrite Hc. rewrite <- E.
    unfold trim. apply trimEnd_idempotent.
Qed.

Lemma trim_append_space (s : string) : trim (trim s ++ " ")%string = trim s.
Proof.
  destruct (trim_head s) as [E|[c [t [E Hc]]]].
  - now rewrite E.
  - unfold trim at 1. rewrite E. simpl. rewrite Hc.
    change (String c (t ++ " ")%string) with (String c t ++ " ")%string.
    rewrite trimEnd_append_space by reflexivity. rewrite <- E.
    unfold trim. apply trimEnd_idempotent.
Qed.

Lemma stripLoop_done (fuel : nat) (s : string) :
  endsWith (toLowerCase s) locationSuffix = false -> stripLoop fuel s = Some s.
Proof. intros H. destruct fuel; simpl; now rewrite H. Qed.

(** The loop of [handleEdit] on a text that Edit wrote gives back the
    street part. *)
Lemma stripLoop_own_text (inputValue : string) :
  endsWith (toLowerCase (trim inputValue)) locationSuffix = false ->
  stripLoop (String.length (trim inputValue ++ " " ++ locationSuffix)%string)
            (trim inputValue ++ " " ++ locationSuffix)%string
  = Some (trim inputValue).
Proof.
  intros Hno. set (p := trim inputValue) in *.
  rewrite (append_assoc p " " locationSuffix).
  assert (Hlen : String.length ((p ++ " ") ++ locationSuffix)%string
                 = S (String.length (p ++ " ")%string + 18)).
  { rewrite length_append. simpl. lia. }
  rewrite Hlen. cbn [stripLoop].
  rewrite toLowerCase_append.
  change (toLowerCase locationSuffix) with locationSuffix.
  rewrite endsWith_append, (length_append (p ++ " ") locationSuffix).
  replace (String.length (p ++ " ")%string + String.length locationSuffix
           - String.length locationSuffix)
    with (String.length (p ++ " ")%string) by lia.
  rewrite substring_head. unfold p. rewrite trim_append_space.
  now apply stripLoop_done.
Qed.

(** X22: Edit is stable on a text that Edit wrote.  Take an address whose
    text is a street part, two spaces and the suffix, as Save writes it,
    where the trimmed street part does not itself end with the suffix.
    Edit shows exactly that street part in the box, and saving the box as
    shown writes the same text again and keeps [lat] and [lon] as they
    are. *)
Theorem edit_is_stable_on_its_own_text :
  forall (index : nat) (inputValue instructionsValue : string)
         (currentAddresses : list value) (o : obj),
    nth_error currentAddresses index = Some (VObj o) ->
    lookup "text" o
    = VStr (trim inputValue ++ " " ++ locationSuffix)%string ->
    endsWith (toLowerCase (trim inputValue)) locationSuffix = false ->
    handleEdit index currentAddresses = Some (trim inputValue)
    /\ exists o',
         saveEdit index (trim inputValue) instructionsValue currentAddresses
         = Some (setNth index (VObj o') currentAddresses)
         /\ lookup "text" o'
            = VStr (trim inputValue ++ " " ++ locationSuffix)%string
         /\ lookup "lat" o' = lookup "lat" o
         /\ lookup "lon" o' = lookup "lon" o.
Proof.
  intros index inputValue instructionsValue currentAddresses o Hi Htext Hno.
  split.
  - unfold handleEdit. rewrite Hi. simpl. rewrite Htext.
    now apply stripLoop_own_text.
  - unfold saveEdit. rewrite Hi. simpl. rewrite Htext.
    unfold editedEntry. rewrite trim_idempotent. simpl.
    rewrite String.eqb_refl. simpl. eexists. split; [reflexivity|].
    split; [rewrite lookup_assign_other by discriminate;
            apply lookup_assign_same|].
    split; rewrite !lookup_assign_other by discriminate; reflexivity.
Qed.

Lemma edit_is_stable_on_its_own_text_witness :
  handleEdit 0 [VObj [("text", VStr "12 Main St  ardlethan nsw 2665");
                      ("lat", VNum (-34.5)%float); ("lon", VNum 146.75%float)]]
  = Some (trim " 12 Main St ")
  /\ exists o',
       saveEdit 0 (trim " 12 Main St ") "side gate"
         [VObj [("text", VStr "12 Main St  ardlethan nsw 2665");
                ("lat", VNum (-34.5)%float); ("lon", VNum 146.75%float)]]
       = Some (setNth 0 (VObj o')
                 [VObj [("text", VStr "12 Main St  ardlethan nsw 2665");
                        ("lat", VNum (-34.5)%float);
                        ("lon", VNum 146.75%float)]])
       /\ lookup "text" o'
          = VStr (trim " 12 Main St " ++ " " ++ locationSuffix)%string
       /\ lookup "lat" o' = VNum (-34.5)%float
       /\ lookup "lon" o' = VNum 146.75%float.
Proof.
  exact (edit_is_stable_on_its_own_text 0 " 12 Main St " "side gate"
           [VObj [("text", VStr "12 Main St  ardlethan nsw 2665");
                  ("lat", VNum (-34.5)%float); ("lon", VNum 146.75%float)]]
           [("text", VStr "12 Main St  ardlethan nsw 2665");
            ("lat", VNum (-34.5)%float); ("lon", VNum 146.75%float)]
           eq_refl eq_refl eq_refl).
Defined.
